(** * SFMdata: ground-truth landmarks and camera poses

    A shallow embedding of [python/gtsam_examples/SFMdata.py] and a
    verification of its computational contract.

    Numbers.  A Python float is an IEEE 754 binary64 number: it is modelled
    by a primitive float, whose operations are the hardware's, so that the
    arithmetic of the source ([2*np.pi], [np.linspace], [radius*np.cos(theta)])
    is computed here bit for bit.  [np.cos] and [np.sin] belong to the C
    library; they are parameters of [createPoses], assumed accurate to one
    unit in the last place at the eight angles.  The geometry library
    (points, rotations, the look-at construction) is modelled over the real
    numbers, the data model the specification gives for [Point3]; a finite
    double enters it as the rational number it denotes.

    Effects.  The two functions build Python lists (and one numpy array).
    These are mutable heap objects, so the functions are written in a small
    state-and-error monad over a heap of objects; [Point3] and [Pose3] are
    immutable values. *)

From Stdlib Require Import ZArith QArith Floats.
From Stdlib Require Import Reals Qreals Machin Lra Lia Sorted.
From stdpp Require Import gmap list fin_maps.

Local Open Scope R_scope.

(** ** Geometry: points, rotations, poses *)

Module Geometry.

(** [gtsam.Point3(x, y, z)] *)
Record Point3 : Type := mkPoint3 { px : R; py : R; pz : R }.

Definition padd (a b : Point3) : Point3 :=
  mkPoint3 (px a + px b) (py a + py b) (pz a + pz b).

Definition psub (a b : Point3) : Point3 :=
  mkPoint3 (px a - px b) (py a - py b) (pz a - pz b).

Definition pneg (a : Point3) : Point3 :=
  mkPoint3 (- px a) (- py a) (- pz a).

Definition pscale (c : R) (a : Point3) : Point3 :=
  mkPoint3 (c * px a) (c * py a) (c * pz a).

Definition dot (a b : Point3) : R :=
  px a * px b + py a * py b + pz a * pz b.

Definition cross (a b : Point3) : Point3 :=
  mkPoint3 (py a * pz b - pz a * py b)
           (pz a * px b - px a * pz b)
           (px a * py b - py a * px b).

Definition norm (a : Point3) : R := sqrt (dot a a).

(** Euclidean distance between two points. *)
Definition distance (a b : Point3) : R := norm (psub a b).

Definition origin : Point3 := mkPoint3 0 0 0.

(** Normalisation is partial: the zero vector has no direction. *)
Definition normalize (v : Point3) : option Point3 :=
  if Req_dec_T (norm v) 0 then None
  else Some (mkPoint3 (px v / norm v) (py v / norm v) (pz v / norm v)).

(** A 3x3 matrix, row by row. *)
Record Matrix3 : Type := mkMatrix3 {
  m11 : R; m12 : R; m13 : R;
  m21 : R; m22 : R; m23 : R;
  m31 : R; m32 : R; m33 : R
}.

Definition identity3 : Matrix3 := mkMatrix3 1 0 0  0 1 0  0 0 1.

Definition transpose (m : Matrix3) : Matrix3 :=
  mkMatrix3 (m11 m) (m21 m) (m31 m)
            (m12 m) (m22 m) (m32 m)
            (m13 m) (m23 m) (m33 m).

Definition mmul (a b : Matrix3) : Matrix3 :=
  mkMatrix3
    (m11 a * m11 b + m12 a * m21 b + m13 a * m31 b)
    (m11 a * m12 b + m12 a * m22 b + m13 a * m32 b)
    (m11 a * m13 b + m12 a * m23 b + m13 a * m33 b)
    (m21 a * m11 b + m22 a * m21 b + m23 a * m31 b)
    (m21 a * m12 b + m22 a * m22 b + m23 a * m32 b)
    (m21 a * m13 b + m22 a * m23 b + m23 a * m33 b)
    (m31 a * m11 b + m32 a * m21 b + m33 a * m31 b)
    (m31 a * m12 b + m32 a * m22 b + m33 a * m32 b)
    (m31 a * m13 b + m32 a * m23 b + m33 a * m33 b).

Definition det (m : Matrix3) : R :=
  m11 m * (m22 m * m33 m - m23 m * m32 m)
  - m12 m * (m21 m * m33 m - m23 m * m31 m)
  + m13 m * (m21 m * m32 m - m22 m * m31 m).

(** [Rot3(r1, r2, r3)]: a rotation given by its three columns, the images
    of the camera's x, y and z axes in the world frame. *)
Record Rot3 : Type := mkRot3 { r1 : Point3; r2 : Point3; r3 : Point3 }.

Definition matrix (r : Rot3) : Matrix3 :=
  mkMatrix3 (px (r1 r)) (px (r2 r)) (px (r3 r))
            (py (r1 r)) (py (r2 r)) (py (r3 r))
            (pz (r1 r)) (pz (r2 r)) (pz (r3 r)).

(** [Pose3(R, t)] *)
Record Pose3 : Type := mkPose3 { rotation : Rot3; translation : Point3 }.

(** Calibration of a pinhole camera; [Cal3_S2()] is the standard one. *)
Record Cal3_S2 : Type := mkCal3_S2 { fx : R; fy : R; skew : R; u0 : R; v0 : R }.

Definition Cal3_S2_default : Cal3_S2 := mkCal3_S2 1 1 0 0 0.

Record PinholeCameraCal3_S2 : Type := mkCamera {
  pose : Pose3;
  calibration : Cal3_S2
}.

(** The axes of a camera pose.  The library's camera frame has x to the
    right, y down and z forward, so the up axis is the opposite of the
    second column. *)
Definition right_axis (p : Pose3) : Point3 := r1 (rotation p).
Definition up_axis (p : Pose3) : Point3 := pneg (r2 (rotation p)).
Definition forward_axis (p : Pose3) : Point3 := r3 (rotation p).

(** Modelled from the spec: [gtsam.PinholeCameraCal3_S2.Lookat] and
    [camera.pose()], which belong to the geometry library and are not in the
    source tree.  "forward axis = normalize(target - eye); right axis =
    normalize(forward x up); recomputed up axis = right x forward.  The
    returned pose's position equals eye; its orientation is the orthonormal
    frame (right, recomputed-up, forward) or the equivalent convention used
    by the surrounding estimation system [...] but internally must be
    orthonormal and right-handed."  The triple (right, up, forward) itself is
    left-handed (see [literal_frame_left_handed]), so the columns are stored
    in the library's convention: right, down, forward.  The degenerate
    inputs (eye = target, or forward parallel to up) "must fail": they give
    [None]. *)
Definition Lookat (eye target upVector : Point3) : option PinholeCameraCal3_S2 :=
  match normalize (psub target eye) with
  | None => None
  | Some fwd =>
      match normalize (cross fwd upVector) with
      | None => None
      | Some rgt =>
          let up := cross rgt fwd in
          Some (mkCamera (mkPose3 (mkRot3 rgt (pneg up) fwd) eye)
                         Cal3_S2_default)
      end
  end.

End Geometry.

(** ** Doubles and the numbers they denote *)

Module Double.

(** The rational number a finite double denotes; an infinity or a NaN
    denotes none. *)
Definition to_Q (f : float) : option Q :=
  match Prim2SF f with
  | S754_zero _ => Some 0%Q
  | S754_finite s m e =>
      let n := if s then Z.neg m else Z.pos m in
      Some (match e with
            | Z0 => n # 1
            | Z.pos p => (n * 2 ^ Z.pos p) # 1
            | Z.neg p => n # (2 ^ p)
            end)
  | _ => None
  end.

Definition to_R (f : float) : option R :=
  match to_Q f with
  | Some q => Some (Q2R q)
  | None => None
  end.

(** A Python int used where a float is expected (exact below 2^53). *)
Definition of_nat (n : nat) : float :=
  PrimFloat.of_uint63 (Uint63.of_Z (Z.of_nat n)).

(** [v] is the double [r] or one of its two neighbours. *)
Definition within_one_ulp (r v : float) : Prop :=
  v = next_down r \/ v = r \/ v = next_up r.

(** [gtsam.Point3(x, y, z)] on three doubles: the point they denote. *)
Definition Point3_of_doubles (x y z : float) : option Geometry.Point3 :=
  match to_R x, to_R y, to_R z with
  | Some a, Some b, Some c => Some (Geometry.mkPoint3 a b c)
  | _, _, _ => None
  end.

End Double.

(** ** Python objects, the heap and the monad of the embedding *)

Module Py.
Import Geometry.

Definition loc : Type := positive.

(** Immutable values that a list can hold. *)
Inductive pyval : Type :=
| VPoint3 (p : Point3)
| VPose3 (p : Pose3).

(** Mutable heap objects: a Python list and a one-dimensional numpy array
    of doubles. *)
Inductive pyobj : Type :=
| PyList (items : list pyval)
| NdArray (items : list float).

Abbreviation heap := (gmap loc pyobj).

(** State and failure: a computation may update the heap, and may raise. *)
Definition M (A : Type) : Type := heap -> option (A * heap).

Definition ret {A} (a : A) : M A := fun h => Some (a, h).

Definition bind {A B} (m : M A) (k : A -> M B) : M B :=
  fun h => match m h with
           | Some (a, h') => k a h'
           | None => None
           end.

Notation "'let*' x ':=' m 'in' k" := (bind m (fun x => k))
  (at level 10, x name, m at level 100, k at level 200).
Notation "m ';;' k" := (bind m (fun _ => k))
  (at level 100, k at level 200, right associativity).

Definition lift_option {A} (o : option A) : M A :=
  fun h => match o with
           | Some a => Some (a, h)
           | None => None
           end.

(** A new object always lives at a location that was not in use. *)
Definition alloc (o : pyobj) : M loc :=
  fun h => let l := fresh (dom h) in Some (l, <[l := o]> h).

(** [lst.append(v)] mutates the list object in place. *)
Definition list_append (l : loc) (v : pyval) : M unit :=
  fun h => match h !! l with
           | Some (PyList vs) => Some (tt, <[l := PyList (vs ++ [v])]> h)
           | _ => None
           end.

Definition array_len (a : loc) : M nat :=
  fun h => match h !! a with
           | Some (NdArray xs) => Some (length xs, h)
           | _ => None
           end.

Definition array_get (a : loc) (i : nat) : M float :=
  fun h => match h !! a with
           | Some (NdArray xs) =>
               match xs !! i with
               | Some x => Some (x, h)
               | None => None
               end
           | _ => None
           end.

(** [for x in a: body], for an array [a]: the elements are read from the
    array object one index after the other. *)
Fixpoint iterate (a : loc) (i n : nat) (body : float -> M unit) : M unit :=
  match n with
  | O => ret tt
  | S n' => let* x := array_get a i in body x ;; iterate a (S i) n' body
  end.

Definition for_in (a : loc) (body : float -> M unit) : M unit :=
  let* n := array_len a in iterate a 0 n body.

(** The list a computation returns, read from the heap it leaves. *)
Definition returned_list (m : M loc) (h : heap) : option (list pyval) :=
  match m h with
  | Some (l, h') =>
      match h' !! l with
      | Some (PyList vs) => Some vs
      | _ => None
      end
  | None => None
  end.

(** A caller that runs the same function twice and keeps both results. *)
Definition call_twice (f : M loc) : M (loc * loc) :=
  let* first := f in
  let* second := f in
  ret (first, second).

(** [f] builds the list [vs] in fresh storage: from every heap it returns a
    location that was not in use, holding [vs], and leaves every object
    that existed before as it was. *)
Definition builds_fresh_list (f : M loc) (vs : list pyval) : Prop :=
  forall h : heap,
    exists (l : loc) (h' : heap),
      f h = Some (l, h')
      /\ h !! l = None
      /\ h' !! l = Some (PyList vs)
      /\ h ⊆ h'.

(** The results of a partial function on the elements of a list, when it is
    defined on all of them. *)
Fixpoint traverse {A B} (g : A -> option B) (xs : list A) : option (list B) :=
  match xs with
  | [] => Some []
  | x :: xs' =>
      match g x, traverse g xs' with
      | Some y, Some ys => Some (y :: ys)
      | _, _ => None
      end
  end.

End Py.

(** ** numpy *)

Module np.
Import Py Double.

(** [np.pi]: the double nearest to pi, 884279719003555 / 2^48. *)
Definition pi : float := 0x1.921fb54442d18p+1%float.

(** [np.linspace(start, stop, num, endpoint)], as numpy computes it:
    [y = arange(0, num)]; [step = (stop - start) / div], where [div] is
    [num] without the end point and [num - 1] with it; [y = y * step] (or
    [y / div * delta] when the step underflows to zero, and [y * delta]
    when [div] is 0); [y += start]; with the end point, the last sample is
    set to [stop]. *)
Definition linspace_values (start stop : float) (num : nat) (endpoint : bool)
  : list float :=
  let div := if endpoint then (num - 1)%nat else num in
  let y := map of_nat (seq 0 num) in
  let delta := (stop - start)%float in
  let y :=
    if (0 <? div)%nat then
      let step := (delta / of_nat div)%float in
      if (step =? 0)%float
      then map (fun v => (v / of_nat div * delta)%float) y
      else map (fun v => (v * step)%float) y
    else map (fun v => (v * delta)%float) y in
  let y := map (fun v => (v + start)%float) y in
  if endpoint && (1 <? num)%nat then <[pred num := stop]> y else y.

Definition linspace (start stop : float) (num : nat) (endpoint : bool) : M loc :=
  alloc (NdArray (linspace_values start stop num endpoint)).

End np.

(** ** The source file *)

Module SFMdata.
Import Geometry Py Double.

(** [createPoints()].  The literals are doubles that denote the integers
    written. *)
Definition createPoints : M loc :=
  let* points := alloc (PyList [VPoint3 (mkPoint3 10 10 10);
                                VPoint3 (mkPoint3 (-10) 10 10);
                                VPoint3 (mkPoint3 (-10) (-10) 10);
                                VPoint3 (mkPoint3 10 (-10) 10);
                                VPoint3 (mkPoint3 10 10 (-10));
                                VPoint3 (mkPoint3 (-10) 10 (-10));
                                VPoint3 (mkPoint3 (-10) (-10) (-10));
                                VPoint3 (mkPoint3 10 (-10) (-10))]) in
  ret points.

Section Libm.

(** [np.cos] and [np.sin], the cosine and sine of the C library. *)
Variables np_cos np_sin : float -> float.

(** [createPoses()] *)
Definition createPoses : M loc :=
  let radius := 30%float in
  let* angles := np.linspace 0 (2 * np.pi) 8 false in
  let up := mkPoint3 0 0 1 in
  let target := mkPoint3 0 0 0 in
  let* poses := alloc (PyList []) in
  for_in angles (fun theta =>
    let* position :=
      lift_option (Point3_of_doubles (radius * np_cos theta)
                                     (radius * np_sin theta) 0) in
    let* camera := lift_option (Lookat position target up) in
    list_append poses (VPose3 (pose camera))) ;;
  ret poses.

(** The position and the pose that the loop body builds for an angle. *)
Definition position_of (theta : float) : option Point3 :=
  Point3_of_doubles (30 * np_cos theta) (30 * np_sin theta) 0.

Definition pose_of (theta : float) : option Pose3 :=
  match position_of theta with
  | Some position =>
      match Lookat position (mkPoint3 0 0 0) (mkPoint3 0 0 1) with
      | Some camera => Some (pose camera)
      | None => None
      end
  | None => None
  end.

End Libm.

(** The angles of the loop, as [np.linspace] computes them. *)
Definition angle_values : list float := np.linspace_values 0 (2 * np.pi) 8 false.

(** The cosine and the sine of the eight angles (of the numbers that the
    doubles of [angle_values] denote), rounded to the nearest double; see
    [reference_values_near] for their distance to the true values. *)
Definition cos_reference : list float :=
  [0x1p+0; 0x1.6a09e667f3bcdp-1; 0x1.1a62633145c07p-54;
   -0x1.6a09e667f3bccp-1; -0x1p+0; -0x1.6a09e667f3bcep-1;
   -0x1.a79394c9e8a0ap-53; 0x1.6a09e667f3bcbp-1]%float.

Definition sin_reference : list float :=
  [0x0p+0; 0x1.6a09e667f3bccp-1; 0x1p+0;
   0x1.6a09e667f3bcdp-1; 0x1.1a62633145c07p-53; -0x1.6a09e667f3bccp-1;
   -0x1p+0; -0x1.6a09e667f3bcep-1]%float.

(** What is assumed of the C library: cosine and sine are exact at zero
    (as IEC 60559 requires), and at each of the eight angles they return
    the nearest double or one of its two neighbours. *)
Record libm_accurate (np_cos np_sin : float -> float) : Prop := {
  cos_at_zero : np_cos 0%float = 1%float;
  sin_at_zero : np_sin 0%float = 0%float;
  cos_accurate :
    Forall2 (fun theta r => within_one_ulp r (np_cos theta))
            angle_values cos_reference;
  sin_accurate :
    Forall2 (fun theta r => within_one_ulp r (np_sin theta))
            angle_values sin_reference
}.

(** A function given by a table: the value listed for a key, NaN elsewhere. *)
Fixpoint table (keys values : list float) (x : float) : float :=
  match keys, values with
  | k :: keys', v :: values' =>
      if (k =? x)%float then v else table keys' values' x
  | _, _ => nan
  end.

(** A correctly rounding cosine and sine, at the eight angles. *)
Definition cos_rounded : float -> float := table angle_values cos_reference.
Definition sin_rounded : float -> float := table angle_values sin_reference.

(** The pose of a camera placed at [eye] in the plane z = 0, away from the
    origin, looking at the origin with (0,0,1) as up hint, in closed form
    (see [Lookat_horizontal]). *)
Definition look_from (eye : Point3) : Pose3 :=
  let n := norm eye in
  mkPose3 (mkRot3 (mkPoint3 (- py eye / n) (px eye / n) 0)
                  (mkPoint3 0 0 (-1))
                  (mkPoint3 (- px eye / n) (- py eye / n) 0))
          eye.

(** An angle given in degrees, in radians. *)
Definition deg (d : R) : R := d * PI / 180.

(** Cosine and sine of the multiples of 45 degrees. *)
Definition octant (k : nat) : R * R :=
  let s := 1 / sqrt 2 in
  match k with
  | 0%nat => (1, 0)
  | 1%nat => (s, s)
  | 2%nat => (0, 1)
  | 3%nat => (- s, s)
  | 4%nat => (-1, 0)
  | 5%nat => (- s, - s)
  | 6%nat => (0, -1)
  | _ => (s, - s)
  end.

(** [e] lies in the plane z = 0, within 10^-13 in each coordinate of the
    point of the circle of radius 30 at [k] times 45 degrees. *)
Definition near_octant (k : nat) (e : Point3) : Prop :=
  Rabs (px e - 30 * fst (octant k)) <= 1 / 10 ^ 13
  /\ Rabs (py e - 30 * snd (octant k)) <= 1 / 10 ^ 13
  /\ pz e = 0.

End SFMdata.

(** ** The scene seen from the cameras, and a caller *)

Module Scene.
Import Geometry Py SFMdata.

(** The landmarks of [createPoints], in the order of the list. *)
Definition corners : list Point3 :=
  [mkPoint3 10 10 10; mkPoint3 (-10) 10 10;
   mkPoint3 (-10) (-10) 10; mkPoint3 10 (-10) 10;
   mkPoint3 10 10 (-10); mkPoint3 (-10) 10 (-10);
   mkPoint3 (-10) (-10) (-10); mkPoint3 10 (-10) (-10)].

(** The transpose of a rotation applied to a vector: its coordinates along
    the three columns. *)
Definition unrotate (r : Rot3) (v : Point3) : Point3 :=
  mkPoint3 (dot (r1 r) v) (dot (r2 r) v) (dot (r3 r) v).

(** The coordinates of a world point in the frame of a pose:
    Rt (q - t).  The third one is the depth of the point along the
    forward axis. *)
Definition transform_to (p : Pose3) (q : Point3) : Point3 :=
  unrotate (rotation p) (psub q (translation p)).

(** The pose [q] expressed in the frame of the pose [p]: rotation Rp^t Rq
    and translation Rp^t (tq - tp), the motion from [p] to [q] as [p]
    sees it. *)
Definition relative_pose (p q : Pose3) : Pose3 :=
  mkPose3 (mkRot3 (unrotate (rotation p) (r1 (rotation q)))
                  (unrotate (rotation p) (r2 (rotation q)))
                  (unrotate (rotation p) (r3 (rotation q))))
          (unrotate (rotation p) (psub (translation q) (translation p))).

(** A caller that takes the landmarks, appends a value to the list it got,
    then takes the poses and the landmarks once more. *)
Definition append_between_calls (np_cos np_sin : float -> float) (v : pyval)
  : M (loc * loc * loc) :=
  let* points := createPoints in
  list_append points v ;;
  let* poses := createPoses np_cos np_sin in
  let* again := createPoints in
  ret (points, poses, again).

End Scene.

(** ** Rational partial sums for pi *)

Module Approx.

Fixpoint qpow (q : Q) (n : nat) : Q :=
  match n with
  | O => 1%Q
  | S n' => (q * qpow q n')%Q
  end.

(** The terms and the partial sums of the alternating series
    pi / 4 = 2 atan (1/3) + atan (1/7), in rational arithmetic. *)
Definition qterm (i : nat) : Q :=
  ((if Nat.even i then 1 else -1)
   * (2 * qpow (1 # 3) (2 * i + 1) / (Z.of_nat (2 * i + 1) # 1)
      + qpow (1 # 7) (2 * i + 1) / (Z.of_nat (2 * i + 1) # 1)))%Q.

Fixpoint qsum (n : nat) : Q :=
  match n with
  | O => qterm 0
  | S m => (qsum m + qterm (S m))%Q
  end.

End Approx.

(** ** Vector facts *)

Module GeometryFacts.
Import Geometry.

Lemma Point3_eq (a b : Point3) :
  px a = px b -> py a = py b -> pz a = pz b -> a = b.
Proof. destruct a, b; simpl; intros -> -> ->; reflexivity. Qed.

Lemma norm_of_square (v : Point3) (r : R) :
  0 <= r -> dot v v = r * r -> norm v = r.
Proof. intros Hr Hd. unfold norm. rewrite Hd. apply sqrt_square, Hr. Qed.

Lemma dot_self_nonneg (v : Point3) : 0 <= dot v v.
Proof. unfold dot. nra. Qed.

Lemma norm_nonneg (v : Point3) : 0 <= norm v.
Proof. apply sqrt_pos. Qed.

Lemma norm_square (v : Point3) : norm v * norm v = dot v v.
Proof. apply sqrt_sqrt, dot_self_nonneg. Qed.

Lemma normalize_unit (v : Point3) (u : Point3) :
  norm v = 1 -> u = v -> normalize v = Some u.
Proof.
  intros Hn ->. unfold normalize. rewrite Hn.
  destruct (Req_dec_T 1 0) as [H | _]; [lra |].
  f_equal. apply Point3_eq; simpl; field.
Qed.

Lemma normalize_scaled (v u : Point3) (r : R) :
  0 < r -> dot v v = r * r ->
  px v = r * px u -> py v = r * py u -> pz v = r * pz u ->
  normalize v = Some u.
Proof.
  intros Hr Hd Hx Hy Hz. unfold normalize.
  rewrite (norm_of_square v r) by (lra || assumption).
  destruct (Req_dec_T r 0) as [H | _]; [lra |].
  f_equal. apply Point3_eq; simpl; rewrite ?Hx, ?Hy, ?Hz; field; lra.
Qed.

Lemma cos_sin_square (t : R) : cos t * cos t + sin t * sin t = 1.
Proof. pose proof (sin2_cos2 t) as H. unfold Rsqr in H. lra. Qed.

Lemma normalize_Some (v u : Point3) :
  normalize v = Some u ->
  dot u u = 1 /\ 0 < norm v /\ v = pscale (norm v) u.
Proof.
  unfold normalize. destruct (Req_dec_T (norm v) 0) as [| Hn]; [discriminate |].
  intros [= <-]. pose proof (norm_square v) as Hsq.
  pose proof (norm_nonneg v) as Hpos. split; [| split].
  - unfold dot in *; simpl.
    replace (px v / norm v * (px v / norm v) + py v / norm v * (py v / norm v)
             + pz v / norm v * (pz v / norm v))
      with ((px v * px v + py v * py v + pz v * pz v) / (norm v * norm v))
      by (field; exact Hn).
    rewrite <- Hsq. field. exact Hn.
  - lra.
  - apply Point3_eq; simpl; field; exact Hn.
Qed.

(** The cross product is orthogonal to its first argument. *)
Lemma dot_cross_left (a b : Point3) : dot (cross a b) a = 0.
Proof. unfold dot, cross; simpl. ring. Qed.

(** The frame built from a unit forward axis and a unit right axis
    orthogonal to it, with the y axis pointing down, is a rotation. *)
Lemma frame_is_rotation (rgt fwd : Point3) :
  dot rgt rgt = 1 -> dot fwd fwd = 1 -> dot rgt fwd = 0 ->
  let m := matrix (mkRot3 rgt (pneg (cross rgt fwd)) fwd) in
  mmul (transpose m) m = identity3 /\ det m = 1.
Proof.
  destruct rgt as [a b c], fwd as [x y z].
  unfold dot; simpl. intros Hr Hf Hrf. split.
  - unfold mmul, identity3; simpl. f_equal; nra.
  - unfold det; simpl. nra.
Qed.

(** Whenever the look-at construction succeeds, the orientation it returns
    is a rotation matrix. *)
Lemma Lookat_rotation (eye target upVector : Point3)
      (camera : PinholeCameraCal3_S2) :
  Lookat eye target upVector = Some camera ->
  let m := matrix (rotation (pose camera)) in
  mmul (transpose m) m = identity3 /\ det m = 1.
Proof.
  unfold Lookat.
  destruct (normalize (psub target eye)) as [fwd |] eqn:Hf; [| discriminate].
  destruct (normalize (cross fwd upVector)) as [rgt |] eqn:Hr; [| discriminate].
  intros [= <-]. simpl pose. simpl rotation.
  apply normalize_Some in Hf. destruct Hf as (Hf1 & _ & _).
  apply normalize_Some in Hr. destruct Hr as (Hr1 & Hn & Hr).
  apply frame_is_rotation; [exact Hr1 | exact Hf1 |].
  pose proof (dot_cross_left fwd upVector) as Hperp.
  rewrite Hr in Hperp. unfold dot, pscale in Hperp; simpl in Hperp.
  unfold dot. nra.
Qed.

(** Taken in the order (right, up, forward), the three axes of a look-at
    pose form a left-handed frame: a reflection, not a rotation. *)
Lemma literal_frame_left_handed (eye target upVector : Point3)
      (camera : PinholeCameraCal3_S2) :
  Lookat eye target upVector = Some camera ->
  det (matrix (mkRot3 (right_axis (pose camera)) (up_axis (pose camera))
                      (forward_axis (pose camera)))) = -1.
Proof.
  intros H. destruct (Lookat_rotation _ _ _ _ H) as [_ Hdet].
  revert Hdet. unfold det, matrix, right_axis, up_axis, forward_axis, pneg.
  simpl. lra.
Qed.

End GeometryFacts.

(** ** The heap operations *)

Module PyFacts.
Import Geometry Py.

Lemma fresh_not_allocated (h : heap) : h !! fresh (dom h) = None.
Proof. apply not_elem_of_dom, is_fresh. Qed.

Lemma alloc_run (o : pyobj) (h : heap) :
  alloc o h = Some (fresh (dom h), <[fresh (dom h) := o]> h).
Proof. reflexivity. Qed.

Lemma list_append_run (l : loc) (v : pyval) (vs : list pyval) (h : heap) :
  h !! l = Some (PyList vs) ->
  list_append l v h = Some (tt, <[l := PyList (vs ++ [v])]> h).
Proof. intros Hl. unfold list_append. rewrite Hl. reflexivity. Qed.

(** A loop whose body appends [g x] to the list at [l] for each element [x]
    of the array at [a], and raises when [g x] is undefined, appends the
    results for the remaining elements, or raises. *)
Lemma iterate_traverse (a l : loc) (xs : list float) (g : float -> option pyval)
      (body : float -> M unit) :
  a <> l ->
  (forall x vs (h : heap), h !! l = Some (PyList vs) ->
     body x h = match g x with
                | Some v => Some (tt, <[l := PyList (vs ++ [v])]> h)
                | None => None
                end) ->
  forall n i vs (h : heap),
    h !! a = Some (NdArray xs) ->
    h !! l = Some (PyList vs) ->
    (i + n)%nat = length xs ->
    iterate a i n body h
    = match traverse g (drop i xs) with
      | Some ws => Some (tt, <[l := PyList (vs ++ ws)]> h)
      | None => None
      end.
Proof.
  intros Hal Hbody. induction n as [| n IH]; intros i vs h Ha Hl Hlen.
  - simpl. unfold ret.
    rewrite drop_ge by lia. simpl. rewrite app_nil_r.
    rewrite insert_id by exact Hl. reflexivity.
  - destruct (lookup_lt_is_Some_2 xs i) as [x Hx]; [lia |].
    simpl. unfold bind at 1. unfold array_get. rewrite Ha, Hx.
    unfold bind at 1. rewrite (Hbody x vs h Hl).
    rewrite (drop_S xs x i Hx). simpl.
    destruct (g x) as [v |]; [| reflexivity].
    rewrite (IH (S i) (vs ++ [v])).
    + destruct (traverse g (drop (S i) xs)) as [ws |]; [| reflexivity].
      rewrite insert_insert_eq, <- app_assoc. reflexivity.
    + rewrite lookup_insert_ne by congruence. exact Ha.
    + apply lookup_insert_eq.
    + lia.
Qed.

Lemma for_in_traverse (a l : loc) (xs : list float) (g : float -> option pyval)
      (body : float -> M unit) (vs : list pyval) (h : heap) :
  a <> l ->
  (forall x vs (h : heap), h !! l = Some (PyList vs) ->
     body x h = match g x with
                | Some v => Some (tt, <[l := PyList (vs ++ [v])]> h)
                | None => None
                end) ->
  h !! a = Some (NdArray xs) ->
  h !! l = Some (PyList vs) ->
  for_in a body h
  = match traverse g xs with
    | Some ws => Some (tt, <[l := PyList (vs ++ ws)]> h)
    | None => None
    end.
Proof.
  intros Hal Hbody Ha Hl. unfold for_in, bind, array_len. rewrite Ha.
  rewrite (iterate_traverse a l xs g body Hal Hbody (length xs) 0 vs h Ha Hl)
    by lia.
  reflexivity.
Qed.

Lemma traverse_map {A B C} (g : A -> option B) (f : B -> C) (xs : list A) :
  traverse (fun x => match g x with Some y => Some (f y) | None => None end) xs
  = match traverse g xs with Some ys => Some (map f ys) | None => None end.
Proof.
  induction xs as [| x xs IH]; simpl; [reflexivity |].
  rewrite IH. destruct (g x); [| reflexivity].
  destruct (traverse g xs); reflexivity.
Qed.

(** When [g] is defined on every element, with a result that satisfies the
    property of its index, [traverse] succeeds and its results satisfy the
    properties of their indices. *)
Lemma traverse_indexed {A B} (g : A -> option B) (P : nat -> B -> Prop)
      (xs : list A) :
  (forall k a, xs !! k = Some a -> exists b, g a = Some b /\ P k b) ->
  exists bs,
    traverse g xs = Some bs
    /\ length bs = length xs
    /\ (forall k b, bs !! k = Some b ->
          exists a, xs !! k = Some a /\ g a = Some b /\ P k b).
Proof.
  revert P. induction xs as [| x xs IH]; intros P H.
  - exists []. split; [reflexivity |]. split; [reflexivity |].
    intros k b Hk. rewrite lookup_nil in Hk. discriminate.
  - destruct (H 0%nat x eq_refl) as (b & Hb & Pb).
    destruct (IH (fun k => P (S k)) (fun k a Hk => H (S k) a Hk))
      as (bs & Hbs & Hlen & Hall).
    exists (b :: bs). simpl. rewrite Hb, Hbs.
    split; [reflexivity |]. split; [f_equal; exact Hlen |].
    intros [| k] b' Hk; simpl in Hk.
    + injection Hk as <-. exists x. auto.
    + apply Hall, Hk.
Qed.

(** Two calls in a row of a function that builds a list in fresh storage
    give two distinct objects with the same contents, both alive at the
    end. *)
Lemma call_twice_fresh (f : M loc) (vs : list pyval) (h : heap) :
  builds_fresh_list f vs ->
  exists (l1 l2 : loc) (h' : heap),
    call_twice f h = Some ((l1, l2), h')
    /\ l1 <> l2
    /\ h' !! l1 = Some (PyList vs)
    /\ h' !! l2 = Some (PyList vs).
Proof.
  intros Hf.
  destruct (Hf h) as (l1 & h1 & Hrun1 & _ & Hl1 & _).
  destruct (Hf h1) as (l2 & h2 & Hrun2 & Hnew2 & Hl2 & Hsub).
  exists l1, l2, h2. unfold call_twice, bind, ret.
  rewrite Hrun1, Hrun2. split; [reflexivity |]. split; [congruence |].
  split; [| exact Hl2]. exact (lookup_weaken _ _ _ _ Hl1 Hsub).
Qed.

End PyFacts.

(** ** Numbers: pi, the square root of 2, and the doubles of the source *)

Module NumericFacts.
Import Approx Double.

Lemma Q2R_qpow (q : Q) (n : nat) : Q2R (qpow q n) = Q2R q ^ n.
Proof.
  induction n as [| n IH]; simpl.
  - unfold Q2R; simpl; field.
  - rewrite Q2R_mult, IH. reflexivity.
Qed.

Lemma pow_minus_one (i : nat) : (-1) ^ i = if Nat.even i then 1 else -1.
Proof.
  induction i as [| i IH]; [reflexivity |].
  rewrite Nat.even_succ, <- Nat.negb_even. simpl pow. rewrite IH.
  destruct (Nat.even i); simpl; lra.
Qed.

Lemma qterm_correct (i : nat) : tg_alt PI_2_3_7_tg i = Q2R (qterm i).
Proof.
  unfold tg_alt, PI_2_3_7_tg, Ratan_seq, qterm.
  assert (Hne : ~ (Z.of_nat (2 * i + 1) # 1 == 0)%Q)
    by (unfold Qeq; simpl; lia).
  rewrite Q2R_mult, Q2R_plus, !Q2R_div, Q2R_mult, !Q2R_qpow by exact Hne.
  rewrite pow_minus_one.
  replace (Q2R (Z.of_nat (2 * i + 1) # 1)) with (INR (2 * i + 1))
    by (unfold Q2R; simpl; rewrite INR_IZR_INZ; field).
  replace (Q2R (1 # 3)) with (/ 3) by (unfold Q2R; simpl; field).
  replace (Q2R (1 # 7)) with (/ 7) by (unfold Q2R; simpl; field).
  replace (Q2R 2) with 2 by (unfold Q2R; simpl; field).
  destruct (Nat.even i); unfold Q2R; simpl; field; apply not_0_INR; lia.
Qed.

Lemma qsum_correct (n : nat) :
  sum_f_R0 (tg_alt PI_2_3_7_tg) n = Q2R (qsum n).
Proof.
  induction n as [| n IH]; simpl.
  - apply qterm_correct.
  - rewrite IH, qterm_correct, Q2R_plus. reflexivity.
Qed.

(** Pi to 20 decimal places. *)
Lemma PI_enclosure :
  3.14159265358979323846 < PI < 3.14159265358979323847.
Proof.
  pose proof (PI_2_3_7_ineq 12) as [Hlo Hhi].
  rewrite qsum_correct in Hlo, Hhi.
  assert (L : (3.14159265358979323846 < 4 * qsum (S (2 * 12)))%Q)
    by (vm_compute; reflexivity).
  assert (U : (4 * qsum (2 * 12) < 3.14159265358979323847)%Q)
    by (vm_compute; reflexivity).
  apply Qlt_Rlt in L, U. rewrite Q2R_mult in L, U.
  replace (Q2R 4) with 4 in L, U by (unfold Q2R; simpl; field).
  replace (Q2R 3.14159265358979323846) with 3.14159265358979323846 in L
    by (unfold Q2R; simpl; lra).
  replace (Q2R 3.14159265358979323847) with 3.14159265358979323847 in U
    by (unfold Q2R; simpl; lra).
  lra.
Qed.

Lemma inv_sqrt2_between (a b : R) :
  0 <= a -> a * a <= 1 / 2 -> 0 <= b -> 1 / 2 <= b * b ->
  a <= 1 / sqrt 2 <= b.
Proof.
  intros Ha Haa Hb Hbb.
  pose proof (sqrt_lt_R0 2 ltac:(lra)) as Hpos.
  pose proof (sqrt_sqrt 2 ltac:(lra)) as Hsq.
  assert (Hs : 0 < 1 / sqrt 2) by (apply Rdiv_lt_0_compat; lra).
  assert (Hss : 1 / sqrt 2 * (1 / sqrt 2) = 1 / 2).
  { replace (1 / sqrt 2 * (1 / sqrt 2)) with (1 / (sqrt 2 * sqrt 2))
      by (field; lra).
    rewrite Hsq. reflexivity. }
  split; nra.
Qed.

(** The inverse of the square root of 2 to 20 decimal places. *)
Lemma inv_sqrt2_enclosure :
  0.70710678118654752440 <= 1 / sqrt 2 <= 0.70710678118654752441.
Proof. apply inv_sqrt2_between; lra. Qed.

End NumericFacts.

(** ** What the two functions compute *)

Module SFMdataFacts.
Import Geometry Py Double GeometryFacts PyFacts NumericFacts SFMdata.

Lemma angle_values_eq :
  angle_values
  = [0x0p+0; 0x1.921fb54442d18p-1; 0x1.921fb54442d18p+0;
     0x1.2d97c7f3321d2p+1; 0x1.921fb54442d18p+1; 0x1.f6a7a2955385ep+1;
     0x1.2d97c7f3321d2p+2; 0x1.5fdbbe9bba775p+2]%float.
Proof. vm_compute. reflexivity. Qed.

Lemma to_R_zero : to_R 0%float = Some 0.
Proof.
  unfold to_R. replace (to_Q 0%float) with (Some 0%Q) by (vm_compute; reflexivity).
  f_equal. unfold Q2R; simpl. lra.
Qed.

Lemma Point3_of_doubles_plane (a b : float) (x y : R) :
  to_R a = Some x -> to_R b = Some y ->
  Point3_of_doubles a b 0 = Some (mkPoint3 x y 0).
Proof.
  intros Ha Hb. unfold Point3_of_doubles. rewrite Ha, Hb, to_R_zero.
  reflexivity.
Qed.

Lemma tolerance_13 : 1 / 10 ^ 13 = 0.0000000000001.
Proof. simpl. lra. Qed.

(** The real number that the double [f] denotes, computed, with the goal
    left about it. *)
Ltac eval_to_R :=
  lazymatch goal with
  | |- exists x, to_R ?f = Some x /\ _ =>
      let q := eval vm_compute in (to_Q f) in
      lazymatch q with
      | Some ?q' =>
          exists (Q2R q'); split;
          [ unfold to_R;
            replace (to_Q f) with (Some q') by (vm_compute; reflexivity);
            reflexivity
          | unfold Q2R; cbn [Qnum Qden] ]
      end
  end.

(** A bound on the distance from a rational number to a multiple of the
    inverse of the square root of 2. *)
Ltac bound_octant :=
  cbn [fst snd octant]; rewrite ?tolerance_13;
  pose proof inv_sqrt2_enclosure;
  set (s := 1 / sqrt 2) in *;
  apply Rabs_le; split; lra.

Lemma norm_plane_square (x y : R) :
  norm (mkPoint3 x y 0) * norm (mkPoint3 x y 0) = x * x + y * y.
Proof. rewrite norm_square. unfold dot; simpl. ring. Qed.

Section Horizontal.

Variables x y : R.
Hypothesis away : 0 < x * x + y * y.

Local Abbreviation n := (norm (mkPoint3 x y 0)).

Lemma norm_plane_pos : 0 < n.
Proof.
  pose proof (norm_plane_square x y) as Hn.
  pose proof (norm_nonneg (mkPoint3 x y 0)) as Hn0.
  fold n in Hn, Hn0. nra.
Qed.

Lemma unit_plane : x / n * (x / n) + y / n * (y / n) = 1.
Proof.
  pose proof norm_plane_pos as Hpos.
  pose proof (norm_plane_square x y) as Hn. fold n in Hn.
  replace (x / n * (x / n) + y / n * (y / n))
    with ((x * x + y * y) / (n * n)) by (field; lra).
  rewrite Hn. field. lra.
Qed.

Lemma forward_horizontal :
  normalize (psub (mkPoint3 0 0 0) (mkPoint3 x y 0))
  = Some (forward_axis (look_from (mkPoint3 x y 0))).
Proof.
  pose proof norm_plane_pos as Hpos.
  pose proof (norm_plane_square x y) as Hn. fold n in Hn.
  unfold look_from, forward_axis. cbn [px py pz rotation r3]. fold n.
  apply (normalize_scaled _ _ n);
    [exact Hpos | unfold dot; simpl; nra | simpl; field; lra ..].
Qed.

Lemma right_horizontal :
  normalize (cross (forward_axis (look_from (mkPoint3 x y 0)))
                   (mkPoint3 0 0 1))
  = Some (right_axis (look_from (mkPoint3 x y 0))).
Proof.
  pose proof unit_plane as Hunit.
  unfold look_from, forward_axis, right_axis.
  cbn [px py pz rotation r1 r3]. fold n.
  apply (normalize_scaled _ _ 1);
    [lra | unfold dot; simpl; unfold Rdiv in *; nra
     | simpl; unfold Rdiv; ring ..].
Qed.

Lemma up_horizontal :
  up_axis (look_from (mkPoint3 x y 0)) = mkPoint3 0 0 1
  /\ cross (right_axis (look_from (mkPoint3 x y 0)))
           (forward_axis (look_from (mkPoint3 x y 0)))
     = mkPoint3 0 0 1.
Proof.
  pose proof unit_plane as Hunit.
  unfold look_from, forward_axis, right_axis, up_axis.
  cbn [px py pz rotation r1 r2 r3]. fold n.
  split; apply Point3_eq; simpl; unfold Rdiv in *; nra.
Qed.

(** The look-at construction from a point of the plane z = 0 other than the
    origin, towards the origin, with the vertical as up hint: it never
    meets its degenerate cases, and yields the closed form [look_from]. *)
Lemma Lookat_horizontal :
  Lookat (mkPoint3 x y 0) (mkPoint3 0 0 0) (mkPoint3 0 0 1)
  = Some (mkCamera (look_from (mkPoint3 x y 0)) Cal3_S2_default).
Proof.
  unfold Lookat. rewrite forward_horizontal, right_horizontal.
  destruct up_horizontal as [_ Hup]. cbv zeta. rewrite Hup.
  assert (pneg (mkPoint3 0 0 1) = mkPoint3 0 0 (-1)) as ->
    by (apply Point3_eq; simpl; lra).
  reflexivity.
Qed.

(** A step of length [t] from the eye along the forward axis ends at
    distance |norm - t| from the origin. *)
Lemma step_forward (t : R) :
  distance (padd (mkPoint3 x y 0)
                 (pscale t (forward_axis (look_from (mkPoint3 x y 0)))))
           (mkPoint3 0 0 0)
  = Rabs (n - t).
Proof.
  pose proof norm_plane_pos as Hpos.
  pose proof (norm_plane_square x y) as Hn. fold n in Hn.
  unfold distance. apply norm_of_square; [apply Rabs_pos |].
  replace (Rabs (n - t) * Rabs (n - t)) with ((n - t) * (n - t))
    by (unfold Rabs; destruct (Rcase_abs (n - t)); ring).
  unfold look_from, forward_axis, dot, padd, pscale, psub.
  cbn [px py pz rotation r3]. fold n.
  replace ((x + t * (- x / n) - 0) * (x + t * (- x / n) - 0)
           + (y + t * (- y / n) - 0) * (y + t * (- y / n) - 0)
           + (0 + t * 0 - 0) * (0 + t * 0 - 0))
    with ((x * x + y * y) * ((n - t) * (n - t)) / (n * n)) by (field; lra).
  rewrite <- Hn. field. lra.
Qed.

End Horizontal.

Lemma Lookat_translation (eye target upVector : Point3)
      (camera : PinholeCameraCal3_S2) :
  Lookat eye target upVector = Some camera ->
  translation (pose camera) = eye.
Proof.
  unfold Lookat.
  destruct (normalize (psub target eye)); [| discriminate].
  destruct (normalize (cross _ upVector)); [| discriminate].
  intros [= <-]. reflexivity.
Qed.

Lemma inv_sqrt2_square : 1 / sqrt 2 * (1 / sqrt 2) = 1 / 2.
Proof.
  pose proof (sqrt_lt_R0 2 ltac:(lra)) as Hpos.
  pose proof (sqrt_sqrt 2 ltac:(lra)) as Hsq.
  replace (1 / sqrt 2 * (1 / sqrt 2)) with (1 / (sqrt 2 * sqrt 2))
    by (field; lra).
  rewrite Hsq. reflexivity.
Qed.

Lemma octant_unit (k : nat) :
  fst (octant k) * fst (octant k) + snd (octant k) * snd (octant k) = 1.
Proof.
  pose proof inv_sqrt2_square as Hss.
  destruct k as [| [| [| [| [| [| [| k]]]]]]]; simpl; lra.
Qed.

Lemma Rabs_bound (x a : R) : Rabs x <= a -> - a <= x <= a.
Proof. unfold Rabs. destruct (Rcase_abs x); lra. Qed.

Lemma tolerance_12 : 1 / 10 ^ 12 = 0.000000000001.
Proof. simpl. lra. Qed.

Lemma tolerance_9 : 1 / 10 ^ 9 = 0.000000001.
Proof. simpl. lra. Qed.

Lemma le_sqrt (a e : R) : 0 <= a -> a * a <= e -> a <= sqrt e.
Proof.
  intros Ha He. rewrite <- (sqrt_square a Ha). apply sqrt_le_1_alt, He.
Qed.

Lemma sqrt_le (b e : R) : 0 <= b -> e <= b * b -> sqrt e <= b.
Proof.
  intros Hb He. rewrite <- (sqrt_square b Hb). apply sqrt_le_1_alt, He.
Qed.

(** A point near the circle of radius 30 lies in the plane z = 0, away from
    the origin, and has a norm near 30. *)
Lemma near_octant_norm (k : nat) (e : Point3) :
  near_octant k e ->
  Rabs (norm e - 30) <= 1 / 10 ^ 12
  /\ 899 < px e * px e + py e * py e
  /\ e = mkPoint3 (px e) (py e) 0.
Proof.
  intros (Hx & Hy & Hz). rewrite tolerance_13 in Hx, Hy.
  rewrite tolerance_12.
  pose proof (octant_unit k) as Hu.
  set (c := fst (octant k)) in *. set (s := snd (octant k)) in *.
  apply Rabs_bound in Hx, Hy.
  destruct e as [x y z]; simpl in *. subst z.
  assert (Hc : -1 <= c <= 1) by (split; nra).
  assert (Hs : -1 <= s <= 1) by (split; nra).
  set (u := x - 30 * c) in *. set (v := y - 30 * s) in *.
  assert (Hcu : - 0.0000000000001 <= c * u <= 0.0000000000001)
    by (split; nra).
  assert (Hsv : - 0.0000000000001 <= s * v <= 0.0000000000001)
    by (split; nra).
  assert (Huu : 0 <= u * u <= 0.0000000000001) by (split; nra).
  assert (Hvv : 0 <= v * v <= 0.0000000000001) by (split; nra).
  assert (Hsum : x * x + y * y
                 = 900 * (c * c + s * s) + 60 * (c * u + s * v)
                   + u * u + v * v) by (unfold u, v; ring).
  rewrite Hu in Hsum.
  split; [| split; [lra | reflexivity]].
  apply Rabs_le. unfold norm, dot; simpl.
  replace (x * x + y * y + 0 * 0) with (x * x + y * y) by ring.
  split.
  - apply Rplus_le_reg_r with 30.
    replace (sqrt (x * x + y * y) - 30 + 30) with (sqrt (x * x + y * y))
      by ring.
    apply le_sqrt; lra.
  - apply Rplus_le_reg_r with 30.
    replace (sqrt (x * x + y * y) - 30 + 30) with (sqrt (x * x + y * y))
      by ring.
    apply sqrt_le; lra.
Qed.

(** One call of [createPoses]: the array of angles is allocated at [a], the
    list of poses at [l], and nothing else changes; the call raises when
    the pose of one of the angles is undefined. *)
Lemma createPoses_run (np_cos np_sin : float -> float) (h : heap) :
  let a := fresh (dom h) in
  let h1 := <[a := NdArray angle_values]> h in
  let l := fresh (dom h1) in
  createPoses np_cos np_sin h
  = match traverse (pose_of np_cos np_sin) angle_values with
    | Some ps => Some (l, <[l := PyList (map VPose3 ps)]> h1)
    | None => None
    end.
Proof.
  intros a h1 l.
  assert (Hal : a <> l).
  { intros E. pose proof (is_fresh (dom h1)) as Hf. fold l in Hf.
    apply Hf. rewrite <- E. unfold h1. rewrite dom_insert_L.
    apply elem_of_union_l, elem_of_singleton. reflexivity. }
  unfold createPoses, np.linspace.
  unfold bind at 1. rewrite alloc_run. fold a. fold angle_values. fold h1.
  unfold bind at 1. rewrite alloc_run. fold l.
  unfold bind at 1.
  rewrite (for_in_traverse a l angle_values
             (fun t => match pose_of np_cos np_sin t with
                       | Some p => Some (VPose3 p)
                       | None => None
                       end) _ [] (<[l := PyList []]> h1) Hal).
  - rewrite traverse_map.
    destruct (traverse (pose_of np_cos np_sin) angle_values) as [ps |];
      [| reflexivity].
    simpl. unfold ret. rewrite insert_insert_eq. reflexivity.
  - intros x vs h' Hl. unfold bind, lift_option, pose_of, position_of.
    destruct (Point3_of_doubles _ _ _) as [position |]; [| reflexivity].
    destruct (Lookat position _ _) as [camera |]; [| reflexivity].
    apply list_append_run, Hl.
  - rewrite lookup_insert_ne by congruence. apply lookup_insert_eq.
  - apply lookup_insert_eq.
Qed.

Lemma createPoints_run (h : heap) :
  createPoints h
  = Some (fresh (dom h),
          <[fresh (dom h) :=
              PyList [VPoint3 (mkPoint3 10 10 10);
                      VPoint3 (mkPoint3 (-10) 10 10);
                      VPoint3 (mkPoint3 (-10) (-10) 10);
                      VPoint3 (mkPoint3 10 (-10) 10);
                      VPoint3 (mkPoint3 10 10 (-10));
                      VPoint3 (mkPoint3 (-10) 10 (-10));
                      VPoint3 (mkPoint3 (-10) (-10) (-10));
                      VPoint3 (mkPoint3 10 (-10) (-10))]]> h).
Proof. reflexivity. Qed.

Lemma returned_points (h : heap) :
  returned_list createPoints h
  = Some [VPoint3 (mkPoint3 10 10 10);
          VPoint3 (mkPoint3 (-10) 10 10);
          VPoint3 (mkPoint3 (-10) (-10) 10);
          VPoint3 (mkPoint3 10 (-10) 10);
          VPoint3 (mkPoint3 10 10 (-10));
          VPoint3 (mkPoint3 (-10) 10 (-10));
          VPoint3 (mkPoint3 (-10) (-10) (-10));
          VPoint3 (mkPoint3 10 (-10) (-10))].
Proof.
  unfold returned_list. rewrite createPoints_run.
  rewrite lookup_insert_eq. reflexivity.
Qed.

Lemma createPoints_fresh :
  builds_fresh_list createPoints
    [VPoint3 (mkPoint3 10 10 10); VPoint3 (mkPoint3 (-10) 10 10);
     VPoint3 (mkPoint3 (-10) (-10) 10); VPoint3 (mkPoint3 10 (-10) 10);
     VPoint3 (mkPoint3 10 10 (-10)); VPoint3 (mkPoint3 (-10) 10 (-10));
     VPoint3 (mkPoint3 (-10) (-10) (-10)); VPoint3 (mkPoint3 10 (-10) (-10))].
Proof.
  intros h. do 2 eexists. split; [apply createPoints_run |].
  pose proof (fresh_not_allocated h) as Hnew.
  split; [exact Hnew |]. split; [apply lookup_insert_eq |].
  apply insert_subseteq, Hnew.
Qed.

Lemma pose_of_position (np_cos np_sin : float -> float) (theta : float)
      (p : Pose3) :
  pose_of np_cos np_sin theta = Some p ->
  position_of np_cos np_sin theta = Some (translation p).
Proof.
  unfold pose_of. destruct (position_of np_cos np_sin theta) as [e |];
    [| discriminate].
  destruct (Lookat e _ _) as [camera |] eqn:Hc; [| discriminate].
  intros [= <-]. rewrite (Lookat_translation _ _ _ _ Hc). reflexivity.
Qed.

Lemma returned_poses (np_cos np_sin : float -> float) (ps : list Pose3)
      (h : heap) :
  traverse (pose_of np_cos np_sin) angle_values = Some ps ->
  returned_list (createPoses np_cos np_sin) h = Some (map VPose3 ps).
Proof.
  intros Hps. unfold returned_list. rewrite createPoses_run, Hps. cbv zeta.
  rewrite lookup_insert_eq. reflexivity.
Qed.

Lemma createPoses_fresh (np_cos np_sin : float -> float) (ps : list Pose3) :
  traverse (pose_of np_cos np_sin) angle_values = Some ps ->
  builds_fresh_list (createPoses np_cos np_sin) (map VPose3 ps).
Proof.
  intros Hps h. do 2 eexists. rewrite createPoses_run, Hps. cbv zeta.
  split; [reflexivity |].
  pose proof (fresh_not_allocated h) as Ha.
  pose proof (fresh_not_allocated (<[fresh (dom h) := NdArray angle_values]> h))
    as Hl.
  split; [| split; [apply lookup_insert_eq |]].
  - apply lookup_insert_None in Hl. tauto.
  - etrans; [apply insert_subseteq, Ha | apply insert_subseteq, Hl].
Qed.

Lemma traverse_to_R (xs : list float) :
  traverse to_R xs
  = match traverse to_Q xs with
    | Some qs => Some (map Q2R qs)
    | None => None
    end.
Proof. apply (traverse_map to_Q Q2R). Qed.

(** The angle of index [k] denotes a number within 10^-15 of [k] times
    pi / 4. *)
Lemma angle_near (k : nat) (theta : float) :
  angle_values !! k = Some theta ->
  exists t, to_R theta = Some t
            /\ (Rabs (t - INR k * (PI / 4)) <= 0.000000000000001
                /\ 0 <= t).
Proof.
  intros Hk. rewrite angle_values_eq in Hk.
  pose proof PI_enclosure as Hpi.
  destruct k as [| [| [| [| [| [| [| [| k]]]]]]]];
    try discriminate Hk;
    injection Hk as <-; eval_to_R; simpl INR;
    (split; [apply Rabs_le; split; lra | lra]).
Qed.

(** The numbers that the eight angles denote: increasing, and 45 degrees
    apart within 10^-15. *)
Lemma angle_reals :
  exists ts : list R,
    traverse to_R angle_values = Some ts
    /\ length ts = 8%nat
    /\ StronglySorted Rlt ts
    /\ (forall (i : nat) (a b : R),
          ts !! i = Some a -> ts !! S i = Some b ->
          Rabs (b - a - deg 45) <= 0.000000000000001).
Proof.
  rewrite traverse_to_R.
  let r := eval vm_compute in (traverse to_Q angle_values) in
  replace (traverse to_Q angle_values) with r by (vm_compute; reflexivity).
  eexists. split; [reflexivity |]. split; [reflexivity |].
  unfold Q2R; cbn [map Qnum Qden]. split.
  - repeat (apply SSorted_cons;
            [| repeat (apply Forall_cons; split; [lra |]);
               apply Forall_nil_2]).
    apply SSorted_nil.
  - pose proof PI_enclosure as Hpi. unfold deg.
    intros i a b Ha Hb.
    destruct i as [| [| [| [| [| [| [| i]]]]]]];
      try discriminate Hb;
      injection Ha as <-; injection Hb as <-; apply Rabs_le; split; lra.
Qed.

Lemma position_of_coordinates (np_cos np_sin : float -> float)
      (theta : float) (e : Point3) :
  position_of np_cos np_sin theta = Some e ->
  to_R (30 * np_cos theta) = Some (px e)
  /\ to_R (30 * np_sin theta) = Some (py e).
Proof.
  unfold position_of, Point3_of_doubles.
  destruct (to_R (30 * np_cos theta)); [| discriminate].
  destruct (to_R (30 * np_sin theta)); [| discriminate].
  destruct (to_R 0); [| discriminate].
  intros [= <-]. split; reflexivity.
Qed.

Lemma normalize_nonzero (v u : Point3) :
  normalize v = Some u -> v <> mkPoint3 0 0 0.
Proof.
  intros Hn E. apply normalize_Some in Hn. destruct Hn as (_ & Hpos & _).
  rewrite E in Hpos. unfold norm, dot in Hpos; simpl in Hpos.
  replace (0 * 0 + 0 * 0 + 0 * 0) with 0 in Hpos by ring.
  rewrite sqrt_0 in Hpos. lra.
Qed.

Section Accurate.

Variables np_cos np_sin : float -> float.
Hypothesis libm : libm_accurate np_cos np_sin.

(** The eye position of every angle is defined and within 10^-13 of the
    point of the circle at the multiple of 45 degrees. *)
Lemma position_near (k : nat) (theta : float) :
  angle_values !! k = Some theta ->
  exists e, position_of np_cos np_sin theta = Some e /\ near_octant k e.
Proof.
  intros Hk.
  destruct (Forall2_lookup_l _ _ _ _ _ (cos_accurate _ _ libm) Hk)
    as (rc & Hrc & Hc).
  destruct (Forall2_lookup_l _ _ _ _ _ (sin_accurate _ _ libm) Hk)
    as (rs & Hrs & Hs).
  rewrite angle_values_eq in Hk.
  assert (Hx : exists x, to_R (30 * np_cos theta) = Some x
                         /\ Rabs (x - 30 * fst (octant k)) <= 1 / 10 ^ 13).
  { destruct k as [| [| [| [| [| [| [| [| k]]]]]]]];
      try discriminate Hk;
      injection Hk as <-; injection Hrc as <-;
      destruct Hc as [-> | [-> | ->]]; eval_to_R; bound_octant. }
  assert (Hy : exists y, to_R (30 * np_sin theta) = Some y
                         /\ Rabs (y - 30 * snd (octant k)) <= 1 / 10 ^ 13).
  { destruct k as [| [| [| [| [| [| [| [| k]]]]]]]];
      try discriminate Hk;
      injection Hk as <-; injection Hrs as <-;
      destruct Hs as [-> | [-> | ->]]; eval_to_R; bound_octant. }
  destruct Hx as (x & Hx & Hxn). destruct Hy as (y & Hy & Hyn).
  exists (mkPoint3 x y 0). split.
  - apply Point3_of_doubles_plane; assumption.
  - repeat split; assumption.
Qed.

Lemma pose_near (k : nat) (theta : float) :
  angle_values !! k = Some theta ->
  exists p, pose_of np_cos np_sin theta = Some p
            /\ near_octant k (translation p)
            /\ p = look_from (translation p).
Proof.
  intros Hk. destruct (position_near k theta Hk) as (e & He & Hn).
  destruct (near_octant_norm k e Hn) as (_ & Hpos & Heq).
  exists (look_from e). unfold pose_of. rewrite He.
  split; [| split; [exact Hn | reflexivity]].
  rewrite Heq. rewrite Lookat_horizontal by lra. reflexivity.
Qed.

(** The poses that [createPoses] computes: one for each of the 8 angles,
    each the closed form at a position near the circle. *)
Lemma computed_poses :
  exists ps : list Pose3,
    traverse (pose_of np_cos np_sin) angle_values = Some ps
    /\ length ps = 8%nat
    /\ (forall k p, ps !! k = Some p ->
          exists theta,
            angle_values !! k = Some theta
            /\ position_of np_cos np_sin theta = Some (translation p)
            /\ near_octant k (translation p)
            /\ p = look_from (translation p)).
Proof.
  destruct (traverse_indexed (pose_of np_cos np_sin)
              (fun k p => near_octant k (translation p)
                          /\ p = look_from (translation p))
              angle_values)
    as (ps & Hps & Hlen & Hall).
  { intros k theta Hk. destruct (pose_near k theta Hk) as (p & Hp & Hn & He).
    exists p. auto. }
  exists ps. split; [exact Hps |]. split.
  - rewrite Hlen, angle_values_eq. reflexivity.
  - intros k p Hk. destruct (Hall k p Hk) as (theta & Ht & Hp & Hn & He).
    exists theta. split; [exact Ht |]. split; [| split; assumption].
    apply pose_of_position, Hp.
Qed.

Lemma returned_poses_Forall (P : pyval -> Prop) (h : heap) :
  (forall k e, (k < 8)%nat -> near_octant k e -> P (VPose3 (look_from e))) ->
  exists vs, returned_list (createPoses np_cos np_sin) h = Some vs
             /\ length vs = 8%nat /\ Forall P vs.
Proof.
  intros HP. destruct computed_poses as (ps & Hps & Hlen & Hall).
  exists (map VPose3 ps). split; [apply returned_poses, Hps |]. split.
  - rewrite length_map. exact Hlen.
  - apply Forall_forall. intros v Hv.
    apply list_elem_of_lookup in Hv. destruct Hv as (k & Hk).
    change (map VPose3 ps) with (VPose3 <$> ps) in Hk.
    rewrite list_lookup_fmap in Hk.
    destruct (ps !! k) as [p |] eqn:Hp; [| discriminate].
    injection Hk as <-.
    destruct (Hall k p Hp) as (theta & _ & _ & Hn & He).
    rewrite He. apply (HP k); [| exact Hn].
    apply lookup_lt_Some in Hp. lia.
Qed.

Lemma returned_poses_lookup (h : heap) (k : nat) :
  (k < 8)%nat ->
  exists vs theta e,
    returned_list (createPoses np_cos np_sin) h = Some vs
    /\ length vs = 8%nat
    /\ vs !! k = Some (VPose3 (look_from e))
    /\ angle_values !! k = Some theta
    /\ position_of np_cos np_sin theta = Some e
    /\ near_octant k e.
Proof.
  intros Hk. destruct computed_poses as (ps & Hps & Hlen & Hall).
  destruct (lookup_lt_is_Some_2 ps k) as [p Hp]; [lia |].
  destruct (Hall k p Hp) as (theta & Ht & Hpos & Hn & He).
  exists (map VPose3 ps), theta, (translation p).
  split; [apply returned_poses, Hps |].
  split; [rewrite length_map; exact Hlen |].
  split; [| auto].
  change (map VPose3 ps) with (VPose3 <$> ps).
  rewrite list_lookup_fmap, Hp, <- He. reflexivity.
Qed.

(** At the angle 0 the position is exact. *)
Lemma position_at_zero :
  position_of np_cos np_sin 0 = Some (mkPoint3 30 0 0).
Proof.
  unfold position_of.
  rewrite (cos_at_zero _ _ libm), (sin_at_zero _ _ libm).
  assert (Hx : exists x, to_R (30 * 1) = Some x /\ x = 30)
    by (eval_to_R; lra).
  assert (Hy : exists y, to_R (30 * 0) = Some y /\ y = 0)
    by (eval_to_R; lra).
  destruct Hx as (x & Hx & ->). destruct Hy as (y & Hy & ->).
  apply Point3_of_doubles_plane; assumption.
Qed.

(** At a quarter turn and at a half turn, the coordinate that would vanish
    on the circle does not: the double nearest to pi is below pi. *)
Lemma quarter_turn_off_axis (theta : float) :
  angle_values !! 2%nat = Some theta ->
  exists x, to_R (30 * np_cos theta) = Some x /\ 0 < x.
Proof.
  intros Hk.
  destruct (Forall2_lookup_l _ _ _ _ _ (cos_accurate _ _ libm) Hk)
    as (rc & Hrc & Hc).
  rewrite angle_values_eq in Hk. injection Hk as <-. injection Hrc as <-.
  destruct Hc as [-> | [-> | ->]]; eval_to_R; lra.
Qed.

Lemma half_turn_off_axis (theta : float) :
  angle_values !! 4%nat = Some theta ->
  exists y, to_R (30 * np_sin theta) = Some y /\ 0 < y.
Proof.
  intros Hk.
  destruct (Forall2_lookup_l _ _ _ _ _ (sin_accurate _ _ libm) Hk)
    as (rs & Hrs & Hs).
  rewrite angle_values_eq in Hk. injection Hk as <-. injection Hrs as <-.
  destruct Hs as [-> | [-> | ->]]; eval_to_R; lra.
Qed.

End Accurate.

(** The correctly rounding cosine and sine meet what is assumed of the C
    library. *)
Lemma rounded_accurate : libm_accurate cos_rounded sin_rounded.
Proof.
  split.
  - vm_compute. reflexivity.
  - vm_compute. reflexivity.
  - rewrite angle_values_eq. unfold cos_reference.
    repeat (apply Forall2_cons; split;
            [right; left; vm_compute; reflexivity |]).
    apply Forall2_nil_2.
  - rewrite angle_values_eq. unfold sin_reference.
    repeat (apply Forall2_cons; split;
            [right; left; vm_compute; reflexivity |]).
    apply Forall2_nil_2.
Qed.

Lemma octant_cos_sin (k : nat) :
  (k < 8)%nat ->
  cos (INR k * (PI / 4)) = fst (octant k)
  /\ sin (INR k * (PI / 4)) = snd (octant k).
Proof.
  intros Hk.
  destruct k as [| [| [| [| [| [| [| [| k]]]]]]]]; [.. | lia];
    simpl octant; simpl fst; simpl snd; simpl INR.
  - replace (0 * (PI / 4)) with 0 by ring. split; [apply cos_0 | apply sin_0].
  - replace (1 * (PI / 4)) with (PI / 4) by ring.
    split; [apply cos_PI4 | apply sin_PI4].
  - replace ((1 + 1) * (PI / 4)) with (PI / 2) by field.
    split; [apply cos_PI2 | apply sin_PI2].
  - replace ((1 + 1 + 1) * (PI / 4)) with (3 * (PI / 4)) by ring.
    rewrite cos_3PI4, sin_3PI4. split; lra.
  - replace ((1 + 1 + 1 + 1) * (PI / 4)) with PI by field.
    split; [apply cos_PI | apply sin_PI].
  - replace ((1 + 1 + 1 + 1 + 1) * (PI / 4)) with (PI / 4 + PI) by field.
    rewrite neg_cos, neg_sin, cos_PI4, sin_PI4. split; lra.
  - replace ((1 + 1 + 1 + 1 + 1 + 1) * (PI / 4)) with (3 * (PI / 2)) by field.
    split; [apply cos_3PI2 | apply sin_3PI2].
  - replace ((1 + 1 + 1 + 1 + 1 + 1 + 1) * (PI / 4))
      with (3 * (PI / 4) + PI) by field.
    rewrite neg_cos, neg_sin, cos_3PI4, sin_3PI4. split; lra.
Qed.

(** Two different octants are too far apart for one point to be near
    both. *)
Lemma near_octant_inj (i j : nat) (e : Point3) :
  (i < 8)%nat -> (j < 8)%nat ->
  near_octant i e -> near_octant j e -> i = j.
Proof.
  intros Hi Hj (Hxi & Hyi & _) (Hxj & Hyj & _).
  rewrite tolerance_13 in Hxi, Hyi, Hxj, Hyj.
  apply Rabs_bound in Hxi, Hyi, Hxj, Hyj.
  pose proof inv_sqrt2_enclosure as Hs.
  destruct i as [| [| [| [| [| [| [| [| i]]]]]]]]; [.. | lia];
    destruct j as [| [| [| [| [| [| [| [| j]]]]]]]]; [.. | lia];
    try reflexivity; exfalso; cbn [fst snd octant] in *;
    set (s := 1 / sqrt 2) in *; lra.
Qed.

Lemma norm_corner (q : Point3) :
  (px q = 10 \/ px q = -10) -> (py q = 10 \/ py q = -10) ->
  (pz q = 10 \/ pz q = -10) -> norm q = 10 * sqrt 3.
Proof.
  intros Hx Hy Hz.
  pose proof (sqrt_pos 3) as Hpos.
  pose proof (sqrt_sqrt 3 ltac:(lra)) as Hsq.
  apply norm_of_square; [lra |]. unfold dot.
  replace (10 * sqrt 3 * (10 * sqrt 3)) with (100 * (sqrt 3 * sqrt 3)) by ring.
  rewrite Hsq. destruct Hx as [-> | ->], Hy as [-> | ->], Hz as [-> | ->]; ring.
Qed.

Lemma corner_norm_below_18 : 10 * sqrt 3 < 18.
Proof.
  pose proof (sqrt_pos 3) as Hpos.
  pose proof (sqrt_sqrt 3 ltac:(lra)) as Hsq. nra.
Qed.

Lemma distance_to_origin (e : Point3) :
  distance e (mkPoint3 0 0 0) = norm e.
Proof.
  unfold distance, norm. f_equal. unfold dot, psub; simpl. ring.
Qed.

Lemma sin_within (u d : R) : - d <= u <= d -> - d <= sin u <= d.
Proof.
  intros Hu. pose proof PI_enclosure as Hpi. pose proof (SIN_bound u) as Hb.
  destruct (Rtotal_order u 0) as [Hneg | [-> | Hpos]].
  - pose proof (sin_lt_x (- u) ltac:(lra)) as Hlt. rewrite sin_neg in Hlt.
    destruct (Rle_dec (-1) u) as [Hsmall | Hbig].
    + pose proof (sin_gt_0 (- u) ltac:(lra) ltac:(lra)) as Hgt.
      rewrite sin_neg in Hgt. lra.
    + lra.
  - rewrite sin_0. lra.
  - pose proof (sin_lt_x u Hpos) as Hlt.
    destruct (Rle_dec u 1) as [Hsmall | Hbig].
    + pose proof (sin_gt_0 u ltac:(lra) ltac:(lra)) as Hgt. lra.
    + lra.
Qed.

(** Cosine and sine move no faster than their argument. *)
Lemma cos_lipschitz (a b d : R) :
  - d <= a - b <= d -> - d <= cos a - cos b <= d.
Proof.
  intros Hab. rewrite form2.
  pose proof (sin_within ((a - b) / 2) (d / 2) ltac:(lra)) as Hs.
  pose proof (SIN_bound ((a + b) / 2)) as Hb.
  set (u := sin ((a - b) / 2)) in *. set (v := sin ((a + b) / 2)) in *.
  split; nra.
Qed.

Lemma sin_lipschitz (a b d : R) :
  - d <= a - b <= d -> - d <= sin a - sin b <= d.
Proof.
  intros Hab. rewrite form4.
  pose proof (sin_within ((a - b) / 2) (d / 2) ltac:(lra)) as Hs.
  pose proof (COS_bound ((a + b) / 2)) as Hb.
  set (u := sin ((a - b) / 2)) in *. set (v := cos ((a + b) / 2)) in *.
  split; nra.
Qed.

Lemma cos_reference_near_octant (k : nat) (r : float) :
  cos_reference !! k = Some r ->
  exists c, to_R r = Some c
            /\ Rabs (c - fst (octant k)) <= 0.000000000000001.
Proof.
  intros H. unfold cos_reference in H.
  destruct k as [| [| [| [| [| [| [| [| k]]]]]]]];
    try discriminate H; injection H as <-; eval_to_R; bound_octant.
Qed.

Lemma sin_reference_near_octant (k : nat) (r : float) :
  sin_reference !! k = Some r ->
  exists s, to_R r = Some s
            /\ Rabs (s - snd (octant k)) <= 0.000000000000001.
Proof.
  intros H. unfold sin_reference in H.
  destruct k as [| [| [| [| [| [| [| [| k]]]]]]]];
    try discriminate H; injection H as <-; eval_to_R; bound_octant.
Qed.

(** The reference values are the cosine and the sine of the eight angles:
    each is within 2 10^-15 of the cosine, or of the sine, of the number
    that the angle denotes. *)
Lemma reference_values_near (k : nat) (theta rc rs : float) :
  angle_values !! k = Some theta ->
  cos_reference !! k = Some rc ->
  sin_reference !! k = Some rs ->
  exists t c s : R,
    to_R theta = Some t /\ to_R rc = Some c /\ to_R rs = Some s
    /\ Rabs (c - cos t) <= 0.000000000000002
    /\ Rabs (s - sin t) <= 0.000000000000002.
Proof.
  intros Hk Hrc Hrs.
  assert (Hlt : (k < 8)%nat).
  { apply lookup_lt_Some in Hk. rewrite angle_values_eq in Hk. exact Hk. }
  destruct (angle_near k theta Hk) as (t & Ht & Hnear & _).
  apply Rabs_bound in Hnear.
  pose proof (cos_lipschitz _ _ _ Hnear) as Hc.
  pose proof (sin_lipschitz _ _ _ Hnear) as Hs.
  destruct (octant_cos_sin k Hlt) as [Ec Es].
  rewrite Ec in Hc. rewrite Es in Hs.
  destruct (cos_reference_near_octant k rc Hrc) as (c & Hcr & Hcn).
  destruct (sin_reference_near_octant k rs Hrs) as (s & Hsr & Hsn).
  apply Rabs_bound in Hcn, Hsn.
  exists t, c, s. repeat split; try assumption; apply Rabs_le; split; lra.
Qed.

End SFMdataFacts.

(** ** The contract of the two functions *)

Module Contract.
Import Geometry Py Double GeometryFacts PyFacts NumericFacts SFMdata
       SFMdataFacts.

(** C1. [createPoints()] takes no argument and, from any heap, returns a list
    of exactly 8 [Point3] values in the fixed order (10,10,10), (-10,10,10),
    (-10,-10,10), (10,-10,10), (10,10,-10), (-10,10,-10), (-10,-10,-10),
    (10,-10,-10); the list has no repetition and its elements are exactly
    the sign combinations of (+-10, +-10, +-10). *)
Theorem createPoints_cube_corners (h : heap) :
  exists ps : list Point3,
    returned_list createPoints h = Some (map VPoint3 ps)
    /\ ps = [mkPoint3 10 10 10; mkPoint3 (-10) 10 10;
             mkPoint3 (-10) (-10) 10; mkPoint3 10 (-10) 10;
             mkPoint3 10 10 (-10); mkPoint3 (-10) 10 (-10);
             mkPoint3 (-10) (-10) (-10); mkPoint3 10 (-10) (-10)]
    /\ length ps = 8%nat
    /\ NoDup ps
    /\ (forall p : Point3,
          In p ps <->
          (px p = 10 \/ px p = -10) /\ (py p = 10 \/ py p = -10)
          /\ (pz p = 10 \/ pz p = -10)).
Proof.
  eexists. split; [| split; [reflexivity |]].
  { rewrite returned_points. reflexivity. }
  split; [reflexivity |]. split.
  - repeat (apply NoDup_cons; split;
            [rewrite ?not_elem_of_cons; repeat split;
             try (intros E; inversion E; lra); apply not_elem_of_nil |]).
    apply NoDup_nil_2.
  - intros [x y z]; simpl. split.
    + intros H. repeat (destruct H as [H | H]; [inversion H; lra |]).
      destruct H.
    + intros ([-> | ->] & [-> | ->] & [-> | ->]); tauto.
Qed.

(** The position of index 2, computed with the correctly rounding cosine
    and sine: its first coordinate is 30 times the double nearest to
    cos(np.pi / 2), about 1.837e-15, not 0. *)
Lemma createPoses_position_2_inexact :
  exists (vs : list pyval) (p : Pose3),
    returned_list (createPoses cos_rounded sin_rounded) (∅ : heap) = Some vs
    /\ vs !! 2%nat = Some (VPose3 p)
    /\ px (translation p)
       = Q2R (4657272750020167 # 2535301200456458802993406410752)
    /\ translation p <> mkPoint3 0 30 0.
Proof.
  destruct (returned_poses_lookup _ _ rounded_accurate ∅ 2 ltac:(lia))
    as (vs & theta & e & Hvs & _ & Hp & Ht & He & _).
  exists vs, (look_from e). split; [exact Hvs |]. split; [exact Hp |].
  rewrite angle_values_eq in Ht. injection Ht as <-.
  apply position_of_coordinates in He. destruct He as [Hx _].
  assert (Hq : exists x, to_R (30 * cos_rounded 0x1.921fb54442d18p+0) = Some x
                         /\ x = Q2R (4657272750020167
                                     # 2535301200456458802993406410752))
    by (eval_to_R; reflexivity).
  destruct Hq as (x & Hq & ->). rewrite Hq in Hx. injection Hx as Hx.
  cbn [translation look_from]. split; [symmetry; exact Hx |].
  intros E. apply (f_equal px) in E. cbn [px] in E.
  rewrite <- Hx in E. unfold Q2R in E; cbn [Qnum Qden] in E. lra.
Qed.

(** C2 (amended). [createPoses()] returns exactly 8 poses, one for each of
    the 8 angles of [np.linspace].  The angle of index k denotes a number
    within 10^-9 of 2 pi k / 8, that is of 45 k degrees; the angles are
    strictly increasing, consecutive ones 45 degrees apart within 10^-9, and
    all below 360 degrees.  The position of the k-th pose is the point
    built from that angle; it is within 10^-9, in each coordinate, of
    (30 cos(2 pi k / 8), 30 sin(2 pi k / 8), 0), with z exactly 0.  For
    k = 0 it is exactly (30,0,0); for k = 2 and k = 4 it is within 10^-9 of
    (0,30,0) and (-30,0,0) but not equal to them. *)
Theorem createPoses_positions (np_cos np_sin : float -> float)
        (libm : libm_accurate np_cos np_sin) (h : heap) (k : nat) (Hk : (k < 8)%nat) :
  exists (vs : list pyval) (p : Pose3) (theta : float) (t : R),
    returned_list (createPoses np_cos np_sin) h = Some vs
    /\ length vs = 8%nat
    /\ vs !! k = Some (VPose3 p)
    /\ length angle_values = 8%nat
    /\ angle_values !! k = Some theta
    /\ to_R theta = Some t
    /\ Rabs (t - 2 * PI * INR k / 8) <= 1 / 10 ^ 9
    /\ Rabs (t - deg (45 * INR k)) <= 1 / 10 ^ 9
    /\ 0 <= t < deg 360
    /\ position_of np_cos np_sin theta = Some (translation p)
    /\ Rabs (px (translation p) - 30 * cos (2 * PI * INR k / 8)) <= 1 / 10 ^ 9
    /\ Rabs (py (translation p) - 30 * sin (2 * PI * INR k / 8)) <= 1 / 10 ^ 9
    /\ pz (translation p) = 0
    /\ (exists ts : list R,
          traverse to_R angle_values = Some ts
          /\ length ts = 8%nat
          /\ StronglySorted Rlt ts
          /\ (forall (i : nat) (a b : R),
                ts !! i = Some a -> ts !! S i = Some b ->
                Rabs (b - a - deg 45) <= 1 / 10 ^ 9))
    /\ (k = 0%nat -> translation p = mkPoint3 30 0 0)
    /\ (k = 2%nat ->
        Rabs (px (translation p)) <= 1 / 10 ^ 9
        /\ Rabs (py (translation p) - 30) <= 1 / 10 ^ 9
        /\ px (translation p) <> 0)
    /\ (k = 4%nat ->
        Rabs (px (translation p) + 30) <= 1 / 10 ^ 9
        /\ Rabs (py (translation p)) <= 1 / 10 ^ 9
        /\ py (translation p) <> 0).
Proof.
  destruct (returned_poses_lookup _ _ libm h k Hk)
    as (vs & theta & e & Hvs & Hlen & Hp & Ht & He & Hn).
  destruct (angle_near k theta Ht) as (t & Hto & Hta & Ht0).
  destruct (octant_cos_sin k Hk) as [Hc Hs].
  pose proof PI_enclosure as Hpi.
  assert (HkR : 0 <= INR k <= 7).
  { split; [apply pos_INR |].
    replace 7 with (INR 7) by (simpl; lra). apply le_INR. lia. }
  apply Rabs_bound in Hta.
  destruct Hn as (Hx & Hy & Hz). rewrite tolerance_13 in Hx, Hy.
  apply Rabs_bound in Hx, Hy.
  replace (2 * PI * INR k / 8) with (INR k * (PI / 4)) by field.
  rewrite Hc, Hs. rewrite !tolerance_9.
  exists vs, (look_from e), theta, t. cbn [translation look_from].
  split; [exact Hvs |]. split; [exact Hlen |]. split; [exact Hp |].
  split; [rewrite angle_values_eq; reflexivity |].
  split; [exact Ht |]. split; [exact Hto |].
  split; [apply Rabs_le; split; lra |].
  split; [unfold deg; apply Rabs_le; split; nra |].
  split; [unfold deg; split; nra |].
  split; [exact He |].
  split; [apply Rabs_le; split; lra |].
  split; [apply Rabs_le; split; lra |].
  split; [exact Hz |]. split.
  { destruct angle_reals as (ts & Hts & Hl & Hsorted & Hstep).
    exists ts. split; [exact Hts |]. split; [exact Hl |].
    split; [exact Hsorted |].
    intros i a b Ha Hb. specialize (Hstep i a b Ha Hb).
    apply Rabs_bound in Hstep. apply Rabs_le. split; lra. }
  split; [| split].
  - intros ->. rewrite angle_values_eq in Ht. injection Ht as <-.
    rewrite (position_at_zero _ _ libm) in He. congruence.
  - intros ->. cbn [fst snd octant] in Hx, Hy.
    destruct (quarter_turn_off_axis _ _ libm theta Ht) as (x & Hxe & Hpos).
    destruct (position_of_coordinates _ _ _ _ He) as [Hpx _].
    assert (x = px e) by congruence. subst x.
    split; [apply Rabs_le; split; lra |].
    split; [apply Rabs_le; split; lra | lra].
  - intros ->. cbn [fst snd octant] in Hx, Hy.
    destruct (half_turn_off_axis _ _ libm theta Ht) as (y & Hye & Hpos).
    destruct (position_of_coordinates _ _ _ _ He) as [_ Hpy].
    assert (y = py e) by congruence. subst y.
    split; [apply Rabs_le; split; lra |].
    split; [apply Rabs_le; split; lra | lra].
Qed.

(** C2 (amended) at the pose of index 2, from the empty heap. *)
Lemma createPoses_positions_witness :
  exists (vs : list pyval) (p : Pose3) (theta : float) (t : R),
    returned_list (createPoses cos_rounded sin_rounded) (∅ : heap) = Some vs
    /\ length vs = 8%nat
    /\ vs !! 2%nat = Some (VPose3 p)
    /\ length angle_values = 8%nat
    /\ angle_values !! 2%nat = Some theta
    /\ to_R theta = Some t
    /\ Rabs (t - 2 * PI * INR 2%nat / 8) <= 1 / 10 ^ 9
    /\ Rabs (t - deg (45 * INR 2%nat)) <= 1 / 10 ^ 9
    /\ 0 <= t < deg 360
    /\ position_of cos_rounded sin_rounded theta = Some (translation p)
    /\ Rabs (px (translation p) - 30 * cos (2 * PI * INR 2%nat / 8)) <= 1 / 10 ^ 9
    /\ Rabs (py (translation p) - 30 * sin (2 * PI * INR 2%nat / 8)) <= 1 / 10 ^ 9
    /\ pz (translation p) = 0
    /\ (exists ts : list R,
          traverse to_R angle_values = Some ts
          /\ length ts = 8%nat
          /\ StronglySorted Rlt ts
          /\ (forall (i : nat) (a b : R),
                ts !! i = Some a -> ts !! S i = Some b ->
                Rabs (b - a - deg 45) <= 1 / 10 ^ 9))
    /\ (2%nat = 0%nat -> translation p = mkPoint3 30 0 0)
    /\ (2%nat = 2%nat ->
        Rabs (px (translation p)) <= 1 / 10 ^ 9
        /\ Rabs (py (translation p) - 30) <= 1 / 10 ^ 9
        /\ px (translation p) <> 0)
    /\ (2%nat = 4%nat ->
        Rabs (px (translation p) + 30) <= 1 / 10 ^ 9
        /\ Rabs (py (translation p)) <= 1 / 10 ^ 9
        /\ py (translation p) <> 0).
Proof.
  apply (createPoses_positions cos_rounded sin_rounded rounded_accurate (∅ : heap) 2%nat); lia.
Defined.

(** C3. The orientation of every pose returned by [createPoses()] is a
    rotation: its matrix R satisfies Rt R = identity and det R = +1 (exactly,
    hence within any tolerance).  Its axes follow the look-at rule:
    forward = normalize(target - eye), right = normalize(forward x up),
    recomputed up = right x forward. *)
Theorem createPoses_orientations_are_rotations (np_cos np_sin : float -> float)
        (libm : libm_accurate np_cos np_sin) (h : heap) :
  exists vs : list pyval,
    returned_list (createPoses np_cos np_sin) h = Some vs
    /\ length vs = 8%nat
    /\ Forall (fun v => exists (p : Pose3) (fwd rgt : Point3),
                  v = VPose3 p
                  /\ mmul (transpose (matrix (rotation p))) (matrix (rotation p))
                     = identity3
                  /\ det (matrix (rotation p)) = 1
                  /\ normalize (psub origin (translation p)) = Some fwd
                  /\ normalize (cross fwd (mkPoint3 0 0 1)) = Some rgt
                  /\ forward_axis p = fwd
                  /\ right_axis p = rgt
                  /\ up_axis p = cross rgt fwd) vs.
Proof.
  apply (returned_poses_Forall _ _ libm). intros k e Hk Hn.
  destruct (near_octant_norm k e Hn) as (_ & Hpos & Heq).
  assert (Haway : 0 < px e * px e + py e * py e) by lra.
  rewrite Heq.
  exists (look_from (mkPoint3 (px e) (py e) 0)),
    (forward_axis (look_from (mkPoint3 (px e) (py e) 0))),
    (right_axis (look_from (mkPoint3 (px e) (py e) 0))).
  destruct (Lookat_rotation _ _ _ _ (Lookat_horizontal _ _ Haway))
    as [Horth Hdet].
  destruct (up_horizontal _ _ Haway) as [Hup Hcross].
  split; [reflexivity |]. split; [exact Horth |]. split; [exact Hdet |].
  split; [exact (forward_horizontal _ _ Haway) |].
  split; [exact (right_horizontal _ _ Haway) |].
  split; [reflexivity |]. split; [reflexivity |].
  rewrite Hup, Hcross. reflexivity.
Qed.

(** C3 from the empty heap, with the correctly rounding cosine and sine. *)
Lemma createPoses_orientations_are_rotations_witness :
  exists vs : list pyval,
    returned_list (createPoses cos_rounded sin_rounded) (∅ : heap) = Some vs
    /\ length vs = 8%nat
    /\ Forall (fun v => exists (p : Pose3) (fwd rgt : Point3),
                  v = VPose3 p
                  /\ mmul (transpose (matrix (rotation p))) (matrix (rotation p))
                     = identity3
                  /\ det (matrix (rotation p)) = 1
                  /\ normalize (psub origin (translation p)) = Some fwd
                  /\ normalize (cross fwd (mkPoint3 0 0 1)) = Some rgt
                  /\ forward_axis p = fwd
                  /\ right_axis p = rgt
                  /\ up_axis p = cross rgt fwd) vs.
Proof.
  apply (createPoses_orientations_are_rotations cos_rounded sin_rounded rounded_accurate (∅ : heap)).
Defined.

(** C4. The forward axis of every pose returned by [createPoses()] is
    normalize((0,0,0) - position): it points from the position to the
    origin.  A step of length t along it ends at distance |d - t| from the
    origin, where d is the distance of the position (within 10^-9 of 30);
    so every step with 0 < t < 2 d, in particular every step of at most 59,
    ends strictly closer to the origin. *)
Theorem createPoses_face_origin (np_cos np_sin : float -> float)
        (libm : libm_accurate np_cos np_sin) (h : heap) :
  exists vs : list pyval,
    returned_list (createPoses np_cos np_sin) h = Some vs
    /\ length vs = 8%nat
    /\ Forall (fun v => exists p : Pose3,
                  v = VPose3 p
                  /\ normalize (psub origin (translation p))
                     = Some (forward_axis p)
                  /\ Rabs (distance (translation p) origin - 30) <= 1 / 10 ^ 9
                  /\ (forall t : R,
                        distance (padd (translation p)
                                       (pscale t (forward_axis p))) origin
                        = Rabs (distance (translation p) origin - t))
                  /\ (forall t : R,
                        0 < t < 2 * distance (translation p) origin ->
                        distance (padd (translation p)
                                       (pscale t (forward_axis p))) origin
                        < distance (translation p) origin)
                  /\ (forall t : R,
                        0 < t <= 59 ->
                        distance (padd (translation p)
                                       (pscale t (forward_axis p))) origin
                        < distance (translation p) origin)) vs.
Proof.
  apply (returned_poses_Forall _ _ libm). intros k e Hk Hn.
  destruct (near_octant_norm k e Hn) as (Hnorm & Hpos & Heq).
  assert (Haway : 0 < px e * px e + py e * py e) by lra.
  rewrite tolerance_12 in Hnorm. apply Rabs_bound in Hnorm.
  rewrite tolerance_9.
  exists (look_from e). cbn [translation look_from].
  fold (look_from e). rewrite distance_to_origin.
  assert (Hstep : forall t : R,
             distance (padd e (pscale t (forward_axis (look_from e)))) origin
             = Rabs (norm e - t)).
  { intros t. rewrite Heq. exact (step_forward _ _ Haway t). }
  assert (Hless : forall t : R, 0 < t < 2 * norm e ->
             distance (padd e (pscale t (forward_axis (look_from e)))) origin
             < norm e).
  { intros t Ht. rewrite Hstep. unfold Rabs.
    destruct (Rcase_abs (norm e - t)); lra. }
  split; [reflexivity |]. split.
  { rewrite Heq. exact (forward_horizontal _ _ Haway). }
  split; [apply Rabs_le; split; lra |].
  split; [exact Hstep |]. split; [exact Hless |].
  intros t Ht. apply Hless. lra.
Qed.

(** C4 from the empty heap, with the correctly rounding cosine and sine. *)
Lemma createPoses_face_origin_witness :
  exists vs : list pyval,
    returned_list (createPoses cos_rounded sin_rounded) (∅ : heap) = Some vs
    /\ length vs = 8%nat
    /\ Forall (fun v => exists p : Pose3,
                  v = VPose3 p
                  /\ normalize (psub origin (translation p))
                     = Some (forward_axis p)
                  /\ Rabs (distance (translation p) origin - 30) <= 1 / 10 ^ 9
                  /\ (forall t : R,
                        distance (padd (translation p)
                                       (pscale t (forward_axis p))) origin
                        = Rabs (distance (translation p) origin - t))
                  /\ (forall t : R,
                        0 < t < 2 * distance (translation p) origin ->
                        distance (padd (translation p)
                                       (pscale t (forward_axis p))) origin
                        < distance (translation p) origin)
                  /\ (forall t : R,
                        0 < t <= 59 ->
                        distance (padd (translation p)
                                       (pscale t (forward_axis p))) origin
                        < distance (translation p) origin)) vs.
Proof.
  apply (createPoses_face_origin cos_rounded sin_rounded rounded_accurate (∅ : heap)).
Defined.

(** C5. [createPoses()] returns exactly 8 poses; each position is at a
    distance from the origin within 10^-9 of 30, and has z-coordinate
    exactly 0. *)
Theorem createPoses_on_circle (np_cos np_sin : float -> float)
        (libm : libm_accurate np_cos np_sin) (h : heap) :
  exists vs : list pyval,
    returned_list (createPoses np_cos np_sin) h = Some vs
    /\ length vs = 8%nat
    /\ Forall (fun v => exists p : Pose3,
                  v = VPose3 p
                  /\ Rabs (distance (translation p) origin - 30) <= 1 / 10 ^ 9
                  /\ pz (translation p) = 0) vs.
Proof.
  apply (returned_poses_Forall _ _ libm). intros k e Hk Hn.
  destruct (near_octant_norm k e Hn) as (Hnorm & _ & _).
  rewrite tolerance_12 in Hnorm. apply Rabs_bound in Hnorm.
  rewrite tolerance_9.
  exists (look_from e). cbn [translation look_from].
  rewrite distance_to_origin.
  split; [reflexivity |]. split; [apply Rabs_le; split; lra |].
  destruct Hn as (_ & _ & Hz). exact Hz.
Qed.

(** C5 from the empty heap, with the correctly rounding cosine and sine. *)
Lemma createPoses_on_circle_witness :
  exists vs : list pyval,
    returned_list (createPoses cos_rounded sin_rounded) (∅ : heap) = Some vs
    /\ length vs = 8%nat
    /\ Forall (fun v => exists p : Pose3,
                  v = VPose3 p
                  /\ Rabs (distance (translation p) origin - 30) <= 1 / 10 ^ 9
                  /\ pz (translation p) = 0) vs.
Proof.
  apply (createPoses_on_circle cos_rounded sin_rounded rounded_accurate (∅ : heap)).
Defined.

(** C6. Both functions are total: from every heap they return, without
    raising.  The degenerate cases of the look-at construction are not
    reached for any of the 8 angles: the eye position is defined, the
    forward axis exists and is horizontal, so its cross product with the
    vertical up hint (0,0,1) is not zero, and [Lookat] succeeds. *)
Theorem createPoints_createPoses_total (np_cos np_sin : float -> float)
        (libm : libm_accurate np_cos np_sin) (h : heap) :
  (exists (l : loc) (h' : heap), createPoints h = Some (l, h'))
  /\ (exists (l : loc) (h' : heap), createPoses np_cos np_sin h = Some (l, h'))
  /\ length angle_values = 8%nat
  /\ Forall (fun theta =>
               exists eye fwd : Point3,
                 position_of np_cos np_sin theta = Some eye
                 /\ normalize (psub (mkPoint3 0 0 0) eye) = Some fwd
                 /\ pz fwd = 0
                 /\ cross fwd (mkPoint3 0 0 1) <> mkPoint3 0 0 0
                 /\ is_Some (normalize (cross fwd (mkPoint3 0 0 1)))
                 /\ is_Some (Lookat eye (mkPoint3 0 0 0) (mkPoint3 0 0 1)))
            angle_values.
Proof.
  split; [rewrite createPoints_run; eauto |].
  split.
  { destruct (computed_poses _ _ libm) as (ps & Hps & _).
    rewrite createPoses_run, Hps. eauto. }
  split; [rewrite angle_values_eq; reflexivity |].
  apply Forall_forall. intros theta Hin.
  apply list_elem_of_lookup in Hin. destruct Hin as (k & Hk).
  destruct (position_near _ _ libm k theta Hk) as (e & He & Hn).
  destruct (near_octant_norm k e Hn) as (_ & Hpos & Heq).
  assert (Haway : 0 < px e * px e + py e * py e) by lra.
  exists e, (forward_axis (look_from e)).
  split; [exact He |]. rewrite Heq.
  split; [exact (forward_horizontal _ _ Haway) |].
  split; [reflexivity |].
  split; [exact (normalize_nonzero _ _ (right_horizontal _ _ Haway)) |].
  split; [rewrite (right_horizontal _ _ Haway); eauto |].
  rewrite (Lookat_horizontal _ _ Haway). eauto.
Qed.

(** C6 from the empty heap, with the correctly rounding cosine and sine. *)
Lemma createPoints_createPoses_total_witness :
  (exists (l : loc) (h' : heap), createPoints (∅ : heap) = Some (l, h'))
  /\ (exists (l : loc) (h' : heap), createPoses cos_rounded sin_rounded (∅ : heap) = Some (l, h'))
  /\ length angle_values = 8%nat
  /\ Forall (fun theta =>
               exists eye fwd : Point3,
                 position_of cos_rounded sin_rounded theta = Some eye
                 /\ normalize (psub (mkPoint3 0 0 0) eye) = Some fwd
                 /\ pz fwd = 0
                 /\ cross fwd (mkPoint3 0 0 1) <> mkPoint3 0 0 0
                 /\ is_Some (normalize (cross fwd (mkPoint3 0 0 1)))
                 /\ is_Some (Lookat eye (mkPoint3 0 0 0) (mkPoint3 0 0 1)))
            angle_values.
Proof.
  apply (createPoints_createPoses_total cos_rounded sin_rounded rounded_accurate (∅ : heap)).
Defined.

(** C7. Both functions are deterministic.  The list each one returns is the
    same from every heap, so it depends on no state; and two calls in a row
    give two lists with equal contents (held in two distinct objects). *)
Theorem calls_are_deterministic (np_cos np_sin : float -> float)
        (libm : libm_accurate np_cos np_sin) (h h0 : heap) :
  returned_list createPoints h = returned_list createPoints h0
  /\ returned_list (createPoses np_cos np_sin) h
     = returned_list (createPoses np_cos np_sin) h0
  /\ (exists (l1 l2 : loc) (h' : heap) (vs : list pyval),
        call_twice createPoints h = Some ((l1, l2), h')
        /\ l1 <> l2
        /\ h' !! l1 = Some (PyList vs)
        /\ h' !! l2 = Some (PyList vs)
        /\ length vs = 8%nat)
  /\ (exists (l1 l2 : loc) (h' : heap) (vs : list pyval),
        call_twice (createPoses np_cos np_sin) h = Some ((l1, l2), h')
        /\ l1 <> l2
        /\ h' !! l1 = Some (PyList vs)
        /\ h' !! l2 = Some (PyList vs)
        /\ length vs = 8%nat).
Proof.
  destruct (computed_poses _ _ libm) as (ps & Hps & Hlen & _).
  split; [rewrite !returned_points; reflexivity |].
  split; [rewrite !(returned_poses _ _ ps) by exact Hps; reflexivity |].
  split.
  - destruct (call_twice_fresh _ _ h createPoints_fresh)
      as (l1 & l2 & h' & Hrun & Hne & H1 & H2).
    exists l1, l2, h'. eexists.
    split; [exact Hrun |]. split; [exact Hne |]. split; [exact H1 |].
    split; [exact H2 | reflexivity].
  - destruct (call_twice_fresh _ _ h (createPoses_fresh _ _ ps Hps))
      as (l1 & l2 & h' & Hrun & Hne & H1 & H2).
    exists l1, l2, h'. eexists.
    split; [exact Hrun |]. split; [exact Hne |]. split; [exact H1 |].
    split; [exact H2 |].
    rewrite length_map. exact Hlen.
Qed.

(** C7 from the empty heap, with the correctly rounding cosine and sine. *)
Lemma calls_are_deterministic_witness :
  returned_list createPoints (∅ : heap) = returned_list createPoints (∅ : heap)
  /\ returned_list (createPoses cos_rounded sin_rounded) (∅ : heap)
     = returned_list (createPoses cos_rounded sin_rounded) (∅ : heap)
  /\ (exists (l1 l2 : loc) (h' : heap) (vs : list pyval),
        call_twice createPoints (∅ : heap) = Some ((l1, l2), h')
        /\ l1 <> l2
        /\ h' !! l1 = Some (PyList vs)
        /\ h' !! l2 = Some (PyList vs)
        /\ length vs = 8%nat)
  /\ (exists (l1 l2 : loc) (h' : heap) (vs : list pyval),
        call_twice (createPoses cos_rounded sin_rounded) (∅ : heap) = Some ((l1, l2), h')
        /\ l1 <> l2
        /\ h' !! l1 = Some (PyList vs)
        /\ h' !! l2 = Some (PyList vs)
        /\ length vs = 8%nat).
Proof.
  apply (calls_are_deterministic cos_rounded sin_rounded rounded_accurate (∅ : heap) (∅ : heap)).
Defined.

(** C8. Neither function mutates pre-existing state.  From every heap, the
    returned list lives at a location that was not in use, every object of
    the initial heap is still there unchanged, and the only new objects are
    the returned list (and, for [createPoses], its local array of angles).
    The returned contents do not depend on the initial heap. *)
Theorem calls_preserve_heap (np_cos np_sin : float -> float)
        (libm : libm_accurate np_cos np_sin) (h h0 : heap) :
  (exists (l : loc) (h' : heap),
     createPoints h = Some (l, h')
     /\ (l ∉ dom h)
     /\ (h ⊆ h')
     /\ dom h' = dom h ∪ {[l]})
  /\ (exists (a l : loc) (h' : heap),
        createPoses np_cos np_sin h = Some (l, h')
        /\ (l ∉ dom h)
        /\ (a ∉ dom h)
        /\ (h ⊆ h')
        /\ dom h' = dom h ∪ {[a; l]})
  /\ returned_list createPoints h = returned_list createPoints h0
  /\ returned_list (createPoses np_cos np_sin) h
     = returned_list (createPoses np_cos np_sin) h0.
Proof.
  destruct (computed_poses _ _ libm) as (ps & Hps & _).
  split; [| split; [| split]].
  - do 2 eexists. split; [apply createPoints_run |].
    pose proof (is_fresh (dom h)) as Hnew.
    split; [exact Hnew |]. split.
    + apply insert_subseteq, not_elem_of_dom, Hnew.
    + rewrite dom_insert_L. apply union_comm_L.
  - pose proof (createPoses_run np_cos np_sin h) as Hrun.
    cbv zeta in Hrun. rewrite Hps in Hrun.
    pose proof (is_fresh (dom h)) as Ha.
    pose proof (is_fresh (dom (<[fresh (dom h) := NdArray angle_values]> h)))
      as Hl.
    exists (fresh (dom h)). do 2 eexists. split; [exact Hrun |].
    split; [| split; [exact Ha | split]].
    + apply not_elem_of_dom. apply not_elem_of_dom in Hl.
      apply lookup_insert_None in Hl. tauto.
    + etrans; apply insert_subseteq, not_elem_of_dom; [exact Ha | exact Hl].
    + rewrite !dom_insert_L. apply set_eq. intros x.
      rewrite !elem_of_union, !elem_of_singleton. tauto.
  - rewrite !returned_points. reflexivity.
  - rewrite !(returned_poses _ _ ps) by exact Hps. reflexivity.
Qed.

(** C8 from the empty heap, with the correctly rounding cosine and sine. *)
Lemma calls_preserve_heap_witness :
  (exists (l : loc) (h' : heap),
     createPoints (∅ : heap) = Some (l, h')
     /\ (l ∉ dom (∅ : heap))
     /\ ((∅ : heap) ⊆ h')
     /\ dom h' = dom (∅ : heap) ∪ {[l]})
  /\ (exists (a l : loc) (h' : heap),
        createPoses cos_rounded sin_rounded (∅ : heap) = Some (l, h')
        /\ (l ∉ dom (∅ : heap))
        /\ (a ∉ dom (∅ : heap))
        /\ ((∅ : heap) ⊆ h')
        /\ dom h' = dom (∅ : heap) ∪ {[a; l]})
  /\ returned_list createPoints (∅ : heap) = returned_list createPoints (∅ : heap)
  /\ returned_list (createPoses cos_rounded sin_rounded) (∅ : heap)
     = returned_list (createPoses cos_rounded sin_rounded) (∅ : heap).
Proof.
  apply (calls_preserve_heap cos_rounded sin_rounded rounded_accurate (∅ : heap) (∅ : heap)).
Defined.

(** C9. For every pose returned by [createPoses()], the recomputed up axis
    right x forward is exactly (0,0,1), and the forward axis has
    z-component 0. *)
Theorem createPoses_zero_roll (np_cos np_sin : float -> float)
        (libm : libm_accurate np_cos np_sin) (h : heap) :
  exists vs : list pyval,
    returned_list (createPoses np_cos np_sin) h = Some vs
    /\ length vs = 8%nat
    /\ Forall (fun v => exists p : Pose3,
                  v = VPose3 p
                  /\ up_axis p = cross (right_axis p) (forward_axis p)
                  /\ up_axis p = mkPoint3 0 0 1
                  /\ pz (forward_axis p) = 0) vs.
Proof.
  apply (returned_poses_Forall _ _ libm). intros k e Hk Hn.
  destruct (near_octant_norm k e Hn) as (_ & Hpos & Heq).
  assert (Haway : 0 < px e * px e + py e * py e) by lra.
  rewrite Heq. exists (look_from (mkPoint3 (px e) (py e) 0)).
  destruct (up_horizontal _ _ Haway) as [Hup Hcross].
  split; [reflexivity |].
  split; [rewrite Hup, Hcross; reflexivity |].
  split; [exact Hup | reflexivity].
Qed.

(** C9 from the empty heap, with the correctly rounding cosine and sine. *)
Lemma createPoses_zero_roll_witness :
  exists vs : list pyval,
    returned_list (createPoses cos_rounded sin_rounded) (∅ : heap) = Some vs
    /\ length vs = 8%nat
    /\ Forall (fun v => exists p : Pose3,
                  v = VPose3 p
                  /\ up_axis p = cross (right_axis p) (forward_axis p)
                  /\ up_axis p = mkPoint3 0 0 1
                  /\ pz (forward_axis p) = 0) vs.
Proof.
  apply (createPoses_zero_roll cos_rounded sin_rounded rounded_accurate (∅ : heap)).
Defined.

(** The position of index 1, computed with the correctly rounding cosine
    and sine, is the pair of doubles (21.213203435596427,
    21.213203435596423): its norm is not 30. *)
Lemma createPoses_norm_1_inexact :
  exists (vs : list pyval) (p : Pose3),
    returned_list (createPoses cos_rounded sin_rounded) (∅ : heap) = Some vs
    /\ vs !! 1%nat = Some (VPose3 p)
    /\ translation p
       = mkPoint3 (Q2R (5970985942992912 # 281474976710656))
                  (Q2R (5970985942992911 # 281474976710656)) 0
    /\ norm (translation p) <> 30.
Proof.
  destruct (returned_poses_lookup _ _ rounded_accurate ∅ 1 ltac:(lia))
    as (vs & theta & e & Hvs & _ & Hp & Ht & He & Hn).
  exists vs, (look_from e). split; [exact Hvs |]. split; [exact Hp |].
  rewrite angle_values_eq in Ht. injection Ht as <-.
  destruct (near_octant_norm 1 e Hn) as (_ & _ & Heq).
  apply position_of_coordinates in He. destruct He as [Hx Hy].
  assert (Hqx : exists x, to_R (30 * cos_rounded 0x1.921fb54442d18p-1) = Some x
                          /\ x = Q2R (5970985942992912 # 281474976710656))
    by (eval_to_R; reflexivity).
  assert (Hqy : exists y, to_R (30 * sin_rounded 0x1.921fb54442d18p-1) = Some y
                          /\ y = Q2R (5970985942992911 # 281474976710656))
    by (eval_to_R; reflexivity).
  destruct Hqx as (x & Hqx & ->). destruct Hqy as (y & Hqy & ->).
  rewrite Hqx in Hx. rewrite Hqy in Hy.
  injection Hx as Hx. injection Hy as Hy.
  cbn [translation look_from].
  assert (Hpos : e = mkPoint3 (Q2R (5970985942992912 # 281474976710656))
                              (Q2R (5970985942992911 # 281474976710656)) 0)
    by (rewrite Heq, <- Hx, <- Hy; reflexivity).
  split; [exact Hpos |].
  intros E. pose proof (norm_plane_square (px e) (py e)) as Hsq.
  rewrite <- Heq, E in Hsq. rewrite <- Hx, <- Hy in Hsq.
  unfold Q2R in Hsq; cbn [Qnum Qden] in Hsq. lra.
Qed.

(** C10 (amended). The 8 positions of the poses returned by
    [createPoses()] are pairwise distinct, and none of them is a point
    returned by [createPoints()]: every position has a norm within 10^-9 of
    30 and every landmark has norm 10 sqrt 3. *)
Theorem positions_distinct (np_cos np_sin : float -> float)
        (libm : libm_accurate np_cos np_sin) (h : heap) :
  exists (ps : list Pose3) (qs : list Point3),
    returned_list (createPoses np_cos np_sin) h = Some (map VPose3 ps)
    /\ returned_list createPoints h = Some (map VPoint3 qs)
    /\ length ps = 8%nat
    /\ length qs = 8%nat
    /\ NoDup (map translation ps)
    /\ Forall (fun p => Rabs (norm (translation p) - 30) <= 1 / 10 ^ 9) ps
    /\ Forall (fun q => norm q = 10 * sqrt 3) qs
    /\ Forall (fun p => Forall (fun q => translation p <> q) qs) ps.
Proof.
  destruct (computed_poses _ _ libm) as (ps & Hps & Hlen & Hall).
  exists ps.
  exists [mkPoint3 10 10 10; mkPoint3 (-10) 10 10;
          mkPoint3 (-10) (-10) 10; mkPoint3 10 (-10) 10;
          mkPoint3 10 10 (-10); mkPoint3 (-10) 10 (-10);
          mkPoint3 (-10) (-10) (-10); mkPoint3 10 (-10) (-10)].
  assert (Hnorm : Forall (fun p => Rabs (norm (translation p) - 30)
                                   <= 0.000000000001) ps).
  { apply Forall_forall. intros p Hp.
    apply list_elem_of_lookup in Hp. destruct Hp as (k & Hk).
    destruct (Hall k p Hk) as (theta & _ & _ & Hn & _).
    destruct (near_octant_norm _ _ Hn) as (Hnear & _).
    rewrite tolerance_12 in Hnear. exact Hnear. }
  assert (Hqs : Forall (fun q => norm q = 10 * sqrt 3)
                  [mkPoint3 10 10 10; mkPoint3 (-10) 10 10;
                   mkPoint3 (-10) (-10) 10; mkPoint3 10 (-10) 10;
                   mkPoint3 10 10 (-10); mkPoint3 (-10) 10 (-10);
                   mkPoint3 (-10) (-10) (-10); mkPoint3 10 (-10) (-10)]).
  { repeat (apply Forall_cons; split;
            [apply norm_corner; simpl; auto |]).
    apply Forall_nil_2. }
  split; [apply returned_poses, Hps |].
  split; [rewrite returned_points; reflexivity |].
  split; [exact Hlen |]. split; [reflexivity |]. split.
  { apply NoDup_alt. intros i j e Hi Hj.
    change (map translation ps) with (translation <$> ps) in Hi, Hj.
    rewrite list_lookup_fmap in Hi, Hj.
    destruct (ps !! i) as [p |] eqn:Hpi; [| discriminate].
    destruct (ps !! j) as [q |] eqn:Hpj; [| discriminate].
    injection Hi as Hi. injection Hj as Hj.
    destruct (Hall i p Hpi) as (_ & _ & _ & Hni & _).
    destruct (Hall j q Hpj) as (_ & _ & _ & Hnj & _).
    apply lookup_lt_Some in Hpi, Hpj.
    rewrite Hi in Hni. rewrite Hj in Hnj.
    apply (near_octant_inj i j e); [lia | lia | assumption ..]. }
  split.
  { rewrite tolerance_9. eapply Forall_impl; [exact Hnorm |].
    intros p Hp. cbv beta in Hp. apply Rabs_bound in Hp.
    apply Rabs_le. split; lra. }
  split; [exact Hqs |].
  rewrite Forall_forall in Hnorm. rewrite Forall_forall in Hqs.
  apply Forall_forall. intros p Hp. apply Forall_forall. intros q Hq E.
  pose proof (Hnorm p Hp) as Hn. cbv beta in Hn. apply Rabs_bound in Hn.
  pose proof (Hqs q Hq) as Hc. cbv beta in Hc.
  pose proof corner_norm_below_18. rewrite E in Hn. lra.
Qed.

(** C10 (amended) from the empty heap, with the correctly rounding cosine
    and sine. *)
Lemma positions_distinct_witness :
  exists (ps : list Pose3) (qs : list Point3),
    returned_list (createPoses cos_rounded sin_rounded) (∅ : heap) = Some (map VPose3 ps)
    /\ returned_list createPoints (∅ : heap) = Some (map VPoint3 qs)
    /\ length ps = 8%nat
    /\ length qs = 8%nat
    /\ NoDup (map translation ps)
    /\ Forall (fun p => Rabs (norm (translation p) - 30) <= 1 / 10 ^ 9) ps
    /\ Forall (fun q => norm q = 10 * sqrt 3) qs
    /\ Forall (fun p => Forall (fun q => translation p <> q) qs) ps.
Proof.
  apply (positions_distinct cos_rounded sin_rounded rounded_accurate (∅ : heap)).
Defined.

End Contract.

(** ** The scene: what the two results are to each other *)

Module SceneFacts.
Import Geometry Py Double GeometryFacts PyFacts NumericFacts SFMdata
       SFMdataFacts Scene.

Lemma returned_corners (h : heap) :
  returned_list createPoints h = Some (map VPoint3 corners).
Proof. rewrite returned_points. reflexivity. Qed.

Lemma corner_signs (q : Point3) :
  In q corners ->
  (px q = 10 \/ px q = -10) /\ (py q = 10 \/ py q = -10)
  /\ (pz q = 10 \/ pz q = -10).
Proof.
  unfold corners. simpl. intros H.
  repeat (destruct H as [<- | H]; [simpl; auto |]). destruct H.
Qed.

Lemma signs_corner (q : Point3) :
  (px q = 10 \/ px q = -10) -> (py q = 10 \/ py q = -10) ->
  (pz q = 10 \/ pz q = -10) -> In q corners.
Proof.
  destruct q as [x y z]; simpl.
  intros [-> | ->] [-> | ->] [-> | ->]; tauto.
Qed.

Lemma square_le_2 (u : R) : u * u <= 2 -> - sqrt 2 <= u <= sqrt 2.
Proof.
  intros Hu. pose proof (sqrt_pos 2) as Hpos.
  pose proof (sqrt_sqrt 2 ltac:(lra)) as Hsq. split; nra.
Qed.

(** For a unit vector of the plane, the sum and the difference of the
    coordinates stay within the square root of 2. *)
Lemma unit_sum_bounds (a b : R) :
  a * a + b * b = 1 ->
  - sqrt 2 <= a + b <= sqrt 2 /\ - sqrt 2 <= a - b <= sqrt 2.
Proof.
  intros Hu.
  pose proof (Rle_0_sqr (a - b)) as Hm.
  pose proof (Rle_0_sqr (a + b)) as Hp.
  unfold Rsqr in Hm, Hp.
  split; apply square_le_2; lra.
Qed.

Lemma sqrt2_bounds : 1.41 < sqrt 2 < 1.42.
Proof.
  pose proof (sqrt_pos 2) as Hpos.
  pose proof (sqrt_sqrt 2 ltac:(lra)) as Hsq. split; nra.
Qed.

(** A landmark, in the frame of a camera placed in the plane z = 0 and
    looking at the origin. *)
Lemma corner_in_camera_frame (x y : R) (q : Point3) :
  0 < x * x + y * y ->
  In q corners ->
  let e := mkPoint3 x y 0 in
  let c := transform_to (look_from e) q in
  Rabs (px c) <= 10 * sqrt 2
  /\ py c = - pz q
  /\ norm e - 10 * sqrt 2 <= pz c <= norm e + 10 * sqrt 2
  /\ pz c = dot (psub q e) (forward_axis (look_from e)).
Proof.
  intros Haway Hq e c. apply corner_signs in Hq.
  pose proof (unit_plane x y Haway) as Hunit.
  pose proof (norm_plane_pos x y Haway) as Hn.
  fold e in Hunit, Hn.
  subst c. unfold transform_to, unrotate, dot, look_from, forward_axis.
  cbn [px py pz rotation translation r1 r2 r3 psub]. fold e.
  set (n := norm e) in *. subst e. cbn [px py pz].
  assert (Hx : x = x / n * n) by (field; lra).
  assert (Hy : y = y / n * n) by (field; lra).
  set (a := x / n) in *. set (b := y / n) in *.
  destruct (unit_sum_bounds a b Hunit) as [Hsum Hdiff].
  destruct q as [qx qy qz]; cbn [px py pz] in *.
  replace (- y / n) with (- b) by (unfold b; field; lra).
  replace (- x / n) with (- a) by (unfold a; field; lra).
  rewrite Hx, Hy.
  split; [| split; [ring | split; [| ring]]].
  - apply Rabs_le. destruct Hq as ([-> | ->] & [-> | ->] & _); split; nra.
  - destruct Hq as ([-> | ->] & [-> | ->] & _); split; nra.
Qed.

(** X1. Every landmark of [createPoints] lies in front of every camera of
    [createPoses]: in the camera's frame its depth is within 10 sqrt 2 of
    the distance d of the camera to the origin (itself within 10^-9 of 30),
    hence above 15; its sideways offset is at most 10 sqrt 2 and its
    vertical coordinate is minus its height (the camera's y axis points
    down). *)
Theorem landmarks_in_front_of_cameras (np_cos np_sin : float -> float)
        (libm : libm_accurate np_cos np_sin) (h : heap) :
  exists (ps : list Pose3) (qs : list Point3),
    returned_list (createPoses np_cos np_sin) h = Some (map VPose3 ps)
    /\ returned_list createPoints h = Some (map VPoint3 qs)
    /\ length ps = 8%nat
    /\ length qs = 8%nat
    /\ Forall (fun p =>
                 Forall (fun q =>
                           let c := transform_to p q in
                           let d := distance (translation p) origin in
                           15 < pz c
                           /\ d - 10 * sqrt 2 <= pz c <= d + 10 * sqrt 2
                           /\ Rabs (d - 30) <= 1 / 10 ^ 9
                           /\ Rabs (px c) <= 10 * sqrt 2
                           /\ py c = - pz q
                           /\ pz c = dot (psub q (translation p))
                                         (forward_axis p)) qs) ps.
Proof.
  destruct (computed_poses _ _ libm) as (ps & Hps & Hlen & Hall).
  exists ps, corners.
  split; [apply returned_poses, Hps |]. split; [apply returned_corners |].
  split; [exact Hlen |]. split; [reflexivity |].
  apply Forall_forall. intros p Hp.
  apply list_elem_of_lookup in Hp. destruct Hp as (k & Hk).
  destruct (Hall k p Hk) as (theta & _ & _ & Hn & He).
  destruct (near_octant_norm _ _ Hn) as (Hnorm & Hpos & Heq).
  rewrite tolerance_12 in Hnorm. apply Rabs_bound in Hnorm.
  assert (Haway : 0 < px (translation p) * px (translation p)
                      + py (translation p) * py (translation p)) by lra.
  apply Forall_forall. intros q Hq. apply list_elem_of_In in Hq.
  pose proof (corner_in_camera_frame _ _ q Haway Hq) as Hframe.
  cbv zeta in Hframe. rewrite <- Heq, <- He in Hframe.
  destruct Hframe as (Hx & Hy & Hz & Hdot).
  pose proof sqrt2_bounds as Hs. cbv zeta.
  rewrite distance_to_origin, tolerance_9.
  split; [lra |]. split; [exact Hz |].
  split; [apply Rabs_le; split; lra |].
  split; [exact Hx |]. split; [exact Hy | exact Hdot].
Qed.

(** X1 from the empty heap, with the correctly rounding cosine and sine. *)
Lemma landmarks_in_front_of_cameras_witness :
  exists (ps : list Pose3) (qs : list Point3),
    returned_list (createPoses cos_rounded sin_rounded) (∅ : heap) = Some (map VPose3 ps)
    /\ returned_list createPoints (∅ : heap) = Some (map VPoint3 qs)
    /\ length ps = 8%nat
    /\ length qs = 8%nat
    /\ Forall (fun p =>
                 Forall (fun q =>
                           let c := transform_to p q in
                           let d := distance (translation p) origin in
                           15 < pz c
                           /\ d - 10 * sqrt 2 <= pz c <= d + 10 * sqrt 2
                           /\ Rabs (d - 30) <= 1 / 10 ^ 9
                           /\ Rabs (px c) <= 10 * sqrt 2
                           /\ py c = - pz q
                           /\ pz c = dot (psub q (translation p))
                                         (forward_axis p)) qs) ps.
Proof.
  apply (landmarks_in_front_of_cameras cos_rounded sin_rounded rounded_accurate (∅ : heap)).
Defined.

(** The forward and right axes of a camera near the circle are within
    10^-12 of those of the camera on the circle. *)
Lemma axes_near (k : nat) (e : Point3) :
  near_octant k e ->
  Rabs (px (forward_axis (look_from e)) + fst (octant k)) <= 1 / 10 ^ 12
  /\ Rabs (py (forward_axis (look_from e)) + snd (octant k)) <= 1 / 10 ^ 12
  /\ pz (forward_axis (look_from e)) = 0
  /\ Rabs (px (right_axis (look_from e)) + snd (octant k)) <= 1 / 10 ^ 12
  /\ Rabs (py (right_axis (look_from e)) - fst (octant k)) <= 1 / 10 ^ 12
  /\ pz (right_axis (look_from e)) = 0.
Proof.
  intros Hn. destruct (near_octant_norm k e Hn) as (Hnorm & Hpos & Heq).
  destruct Hn as (Hx & Hy & _).
  rewrite tolerance_13 in Hx, Hy. rewrite tolerance_12 in Hnorm.
  rewrite tolerance_12.
  apply Rabs_bound in Hx, Hy, Hnorm.
  pose proof (octant_unit k) as Hu.
  set (c := fst (octant k)) in *. set (s := snd (octant k)) in *.
  assert (Hc : -1 <= c <= 1) by (split; nra).
  assert (Hs : -1 <= s <= 1) by (split; nra).
  unfold look_from, forward_axis, right_axis.
  cbn [px py pz rotation r1 r3].
  set (n := norm e) in *.
  assert (Ha : px e = px e / n * n) by (field; lra).
  assert (Hb : py e = py e / n * n) by (field; lra).
  replace (- px e / n) with (- (px e / n)) by (field; lra).
  replace (- py e / n) with (- (py e / n)) by (field; lra).
  set (a := px e / n) in *. set (b := py e / n) in *.
  assert (Hac : - 0.000000000001 <= a - c <= 0.000000000001).
  { assert (H1 : (a - c) * n = px e - 30 * c + c * (30 - n)) by (rewrite Ha; ring).
    assert (H2 : - 0.0000000000011 <= (a - c) * n <= 0.0000000000011) by nra.
    split; nra. }
  assert (Hbs : - 0.000000000001 <= b - s <= 0.000000000001).
  { assert (H1 : (b - s) * n = py e - 30 * s + s * (30 - n)) by (rewrite Hb; ring).
    assert (H2 : - 0.0000000000011 <= (b - s) * n <= 0.0000000000011) by nra.
    split; nra. }
  repeat split; try reflexivity; apply Rabs_le; split; lra.
Qed.

Lemma octant_opposite (k : nat) :
  (k < 4)%nat ->
  fst (octant (k + 4)) = - fst (octant k)
  /\ snd (octant (k + 4)) = - snd (octant k).
Proof.
  intros Hk. destruct k as [| [| [| [| k]]]]; [.. | lia]; simpl; split; lra.
Qed.

(** X2. The cameras come in opposite pairs: for k below 4, the position
    and the forward and right axes of pose k + 4 are, within 10^-9 in each
    coordinate, the opposites of those of pose k, and the two poses have
    the same up axis: the two cameras face each other through the
    origin. *)
Theorem opposite_cameras_face_each_other (np_cos np_sin : float -> float)
        (libm : libm_accurate np_cos np_sin) (h : heap) (k : nat) (Hk : (k < 4)%nat) :
  exists (vs : list pyval) (p q : Pose3),
    returned_list (createPoses np_cos np_sin) h = Some vs
    /\ length vs = 8%nat
    /\ vs !! k = Some (VPose3 p)
    /\ vs !! (k + 4)%nat = Some (VPose3 q)
    /\ Rabs (px (translation q) + px (translation p)) <= 1 / 10 ^ 9
    /\ Rabs (py (translation q) + py (translation p)) <= 1 / 10 ^ 9
    /\ pz (translation q) = 0 /\ pz (translation p) = 0
    /\ Rabs (px (forward_axis q) + px (forward_axis p)) <= 1 / 10 ^ 9
    /\ Rabs (py (forward_axis q) + py (forward_axis p)) <= 1 / 10 ^ 9
    /\ pz (forward_axis q) = 0 /\ pz (forward_axis p) = 0
    /\ Rabs (px (right_axis q) + px (right_axis p)) <= 1 / 10 ^ 9
    /\ Rabs (py (right_axis q) + py (right_axis p)) <= 1 / 10 ^ 9
    /\ pz (right_axis q) = 0 /\ pz (right_axis p) = 0
    /\ up_axis q = up_axis p.
Proof.
  destruct (returned_poses_lookup _ _ libm h k ltac:(lia))
    as (vs & t1 & e1 & Hvs & Hlen & Hp & _ & _ & Hn1).
  destruct (returned_poses_lookup _ _ libm h (k + 4) ltac:(lia))
    as (vs' & t2 & e2 & Hvs' & _ & Hq & _ & _ & Hn2).
  assert (vs' = vs) as -> by congruence.
  exists vs, (look_from e1), (look_from e2).
  split; [exact Hvs |]. split; [exact Hlen |]. split; [exact Hp |].
  split; [exact Hq |].
  destruct (axes_near _ _ Hn1) as (F1x & F1y & F1z & R1x & R1y & R1z).
  destruct (axes_near _ _ Hn2) as (F2x & F2y & F2z & R2x & R2y & R2z).
  destruct (near_octant_norm _ _ Hn1) as (_ & Hpos1 & Heq1).
  destruct (near_octant_norm _ _ Hn2) as (_ & Hpos2 & Heq2).
  destruct Hn1 as (X1 & Y1 & Z1). destruct Hn2 as (X2 & Y2 & Z2).
  destruct (octant_opposite k Hk) as [Hc Hs]. rewrite Hc, Hs in *.
  rewrite tolerance_13 in X1, Y1, X2, Y2.
  rewrite tolerance_12 in F1x, F1y, R1x, R1y, F2x, F2y, R2x, R2y.
  rewrite tolerance_9.
  apply Rabs_bound in X1, Y1, X2, Y2, F1x, F1y, R1x, R1y, F2x, F2y, R2x, R2y.
  cbn [translation look_from].
  fold (look_from e1). fold (look_from e2).
  repeat (split; [first [assumption | apply Rabs_le; split; lra] |]).
  assert (U1 : up_axis (look_from e1) = mkPoint3 0 0 1).
  { rewrite Heq1. apply up_horizontal. lra. }
  assert (U2 : up_axis (look_from e2) = mkPoint3 0 0 1).
  { rewrite Heq2. apply up_horizontal. lra. }
  rewrite U1, U2. reflexivity.
Qed.

(** X2 at the poses of index 1 and 5, from the empty heap. *)
Lemma opposite_cameras_face_each_other_witness :
  exists (vs : list pyval) (p q : Pose3),
    returned_list (createPoses cos_rounded sin_rounded) (∅ : heap) = Some vs
    /\ length vs = 8%nat
    /\ vs !! 1%nat = Some (VPose3 p)
    /\ vs !! (1%nat + 4)%nat = Some (VPose3 q)
    /\ Rabs (px (translation q) + px (translation p)) <= 1 / 10 ^ 9
    /\ Rabs (py (translation q) + py (translation p)) <= 1 / 10 ^ 9
    /\ pz (translation q) = 0 /\ pz (translation p) = 0
    /\ Rabs (px (forward_axis q) + px (forward_axis p)) <= 1 / 10 ^ 9
    /\ Rabs (py (forward_axis q) + py (forward_axis p)) <= 1 / 10 ^ 9
    /\ pz (forward_axis q) = 0 /\ pz (forward_axis p) = 0
    /\ Rabs (px (right_axis q) + px (right_axis p)) <= 1 / 10 ^ 9
    /\ Rabs (py (right_axis q) + py (right_axis p)) <= 1 / 10 ^ 9
    /\ pz (right_axis q) = 0 /\ pz (right_axis p) = 0
    /\ up_axis q = up_axis p.
Proof.
  apply (opposite_cameras_face_each_other cos_rounded sin_rounded rounded_accurate (∅ : heap) 1%nat); lia.
Defined.

(** The error of a product of two approximate factors. *)
Lemma mul_near (a a0 b b0 da db A B : R) :
  - da <= a - a0 <= da -> - db <= b - b0 <= db ->
  - A <= a0 <= A -> - B <= b0 <= B ->
  - (da * B + A * db + da * db) <= a * b - a0 * b0
  <= da * B + A * db + da * db.
Proof.
  intros Ha Hb HA HB.
  set (u := a - a0) in *. set (v := b - b0) in *.
  assert (E : a * b - a0 * b0 = u * b0 + a0 * v + u * v)
    by (unfold u, v; ring).
  assert (H1 : - (da * B) <= u * b0 <= da * B) by (split; nra).
  assert (H2 : - (A * db) <= a0 * v <= A * db) by (split; nra).
  assert (H3 : - (da * db) <= u * v <= da * db) by (split; nra).
  rewrite E. lra.
Qed.

(** From one octant to the next, the last being followed by the first, the
    direction turns by 45 degrees. *)
Lemma octant_next (k : nat) :
  (k < 8)%nat ->
  fst (octant k) * fst (octant (S k mod 8))
  + snd (octant k) * snd (octant (S k mod 8)) = cos (PI / 4)
  /\ fst (octant k) * snd (octant (S k mod 8))
     - snd (octant k) * fst (octant (S k mod 8)) = sin (PI / 4).
Proof.
  intros Hk. rewrite cos_PI4, sin_PI4.
  pose proof inv_sqrt2_square as Hss.
  destruct k as [| [| [| [| [| [| [| [| k]]]]]]]]; [.. | lia];
    simpl; set (s := 1 / sqrt 2) in *; split; nra.
Qed.

Lemma octant_bounds (k : nat) :
  -1 <= fst (octant k) <= 1 /\ -1 <= snd (octant k) <= 1.
Proof. pose proof (octant_unit k). split; split; nra. Qed.

(** The motion between two cameras near the circle, the second one octant
    after the first, seen from the first. *)
Lemma between_near (k : nat) (e e' : Point3) :
  (k < 8)%nat ->
  near_octant k e -> near_octant (S k mod 8) e' ->
  let m := relative_pose (look_from e) (look_from e') in
  Rabs (px (r1 (rotation m)) - cos (PI / 4)) <= 1 / 10 ^ 9
  /\ py (r1 (rotation m)) = 0
  /\ Rabs (pz (r1 (rotation m)) - sin (PI / 4)) <= 1 / 10 ^ 9
  /\ r2 (rotation m) = mkPoint3 0 1 0
  /\ Rabs (px (r3 (rotation m)) + sin (PI / 4)) <= 1 / 10 ^ 9
  /\ py (r3 (rotation m)) = 0
  /\ Rabs (pz (r3 (rotation m)) - cos (PI / 4)) <= 1 / 10 ^ 9
  /\ Rabs (px (translation m) - 30 * sin (PI / 4)) <= 1 / 10 ^ 9
  /\ py (translation m) = 0
  /\ Rabs (pz (translation m) - 30 * (1 - cos (PI / 4))) <= 1 / 10 ^ 9.
Proof.
  intros Hk Hn Hn' m.
  destruct (axes_near _ _ Hn) as (Fx & Fy & _ & Rx & Ry & _).
  destruct (axes_near _ _ Hn') as (Fx' & Fy' & _ & Rx' & Ry' & _).
  destruct Hn as (X & Y & Z). destruct Hn' as (X' & Y' & Z').
  destruct (octant_next k Hk) as [Hcos Hsin].
  destruct (octant_bounds k) as [Bc Bs].
  destruct (octant_bounds (S k mod 8)) as [Bc' Bs'].
  pose proof (octant_unit k) as Hu.
  rewrite <- Hcos, <- Hsin. rewrite tolerance_9.
  rewrite tolerance_13 in X, Y, X', Y'.
  rewrite tolerance_12 in Fx, Fy, Rx, Ry, Fx', Fy', Rx', Ry'.
  apply Rabs_bound in X, Y, X', Y', Fx, Fy, Rx, Ry, Fx', Fy', Rx', Ry'.
  subst m. unfold relative_pose, unrotate, dot, look_from, forward_axis, right_axis
    in *.
  cbn [px py pz rotation translation r1 r2 r3 psub] in *.
  set (c := fst (octant k)) in *. set (s := snd (octant k)) in *.
  set (c' := fst (octant (S k mod 8))) in *.
  set (s' := snd (octant (S k mod 8))) in *.
  set (n := norm e) in *. set (n' := norm e') in *.
  set (fx := - px e / n) in *. set (fy := - py e / n) in *.
  set (ry := px e / n) in *.
  set (fx' := - px e' / n') in *. set (fy' := - py e' / n') in *.
  set (ry' := px e' / n') in *.
  set (dx := px e' - px e) in *. set (dy := py e' - py e) in *.
  assert (Dx : - 0.0000000000002 <= dx - 30 * (c' - c) <= 0.0000000000002)
    by (unfold dx; lra).
  assert (Dy : - 0.0000000000002 <= dy - 30 * (s' - s) <= 0.0000000000002)
    by (unfold dy; lra).
  assert (Bdx : -60 <= 30 * (c' - c) <= 60) by lra.
  assert (Bdy : -60 <= 30 * (s' - s) <= 60) by lra.
  assert (Fx0 : - 0.000000000001 <= fx - - c <= 0.000000000001) by lra.
  assert (Fy0 : - 0.000000000001 <= fy - - s <= 0.000000000001) by lra.
  assert (Fx0' : - 0.000000000001 <= fx' - - c' <= 0.000000000001) by lra.
  assert (Fy0' : - 0.000000000001 <= fy' - - s' <= 0.000000000001) by lra.
  assert (Bns : -1 <= - s <= 1) by lra. assert (Bnc : -1 <= - c <= 1) by lra.
  assert (Bns' : -1 <= - s' <= 1) by lra.
  assert (Bnc' : -1 <= - c' <= 1) by lra.
  pose proof (mul_near fy (- s) fy' (- s') 0.000000000001 0.000000000001 1 1
                ltac:(lra) ltac:(lra) ltac:(lra) ltac:(lra)) as P1.
  pose proof (mul_near ry c ry' c' 0.000000000001 0.000000000001 1 1
                ltac:(lra) ltac:(lra) ltac:(lra) ltac:(lra)) as P2.
  pose proof (mul_near fx (- c) fy' (- s') 0.000000000001 0.000000000001 1 1
                ltac:(lra) ltac:(lra) ltac:(lra) ltac:(lra)) as P3.
  pose proof (mul_near fy (- s) ry' c' 0.000000000001 0.000000000001 1 1
                ltac:(lra) ltac:(lra) ltac:(lra) ltac:(lra)) as P4.
  pose proof (mul_near fy (- s) fx' (- c') 0.000000000001 0.000000000001 1 1
                ltac:(lra) ltac:(lra) ltac:(lra) ltac:(lra)) as P5.
  pose proof (mul_near ry c fy' (- s') 0.000000000001 0.000000000001 1 1
                ltac:(lra) ltac:(lra) ltac:(lra) ltac:(lra)) as P6.
  pose proof (mul_near fx (- c) fx' (- c') 0.000000000001 0.000000000001 1 1
                ltac:(lra) ltac:(lra) ltac:(lra) ltac:(lra)) as P7.
  pose proof (mul_near fy (- s) dx (30 * (c' - c)) 0.000000000001 0.0000000000002 1 60
                ltac:(lra) ltac:(lra) ltac:(lra) ltac:(lra)) as T1.
  pose proof (mul_near ry c dy (30 * (s' - s)) 0.000000000001 0.0000000000002 1 60
                ltac:(lra) ltac:(lra) ltac:(lra) ltac:(lra)) as T2.
  pose proof (mul_near fx (- c) dx (30 * (c' - c)) 0.000000000001 0.0000000000002 1 60
                ltac:(lra) ltac:(lra) ltac:(lra) ltac:(lra)) as T3.
  pose proof (mul_near fy (- s) dy (30 * (s' - s)) 0.000000000001 0.0000000000002 1 60
                ltac:(lra) ltac:(lra) ltac:(lra) ltac:(lra)) as T4.
  split; [apply Rabs_le; split; lra |].
  split; [ring |].
  split; [apply Rabs_le; split; lra |].
  split; [apply Point3_eq; simpl; ring |].
  split; [apply Rabs_le; split; lra |].
  split; [ring |].
  split; [apply Rabs_le; split; lra |].
  split; [apply Rabs_le; split; nra |].
  split; [lra |].
  apply Rabs_le; split; nra.
Qed.

(** X3. The motion from each camera to the next one, the last one being
    followed by the first, is the same for all 8 cameras when seen from the
    camera it starts at: within 10^-9 in each entry, a turn of 45 degrees
    about the y axis of the camera and the shift
    (30 sin 45, 0, 30 (1 - cos 45)); the entries along the y axis are
    exact. *)
Theorem same_motion_between_consecutive_poses (np_cos np_sin : float -> float)
        (libm : libm_accurate np_cos np_sin) (h : heap) (k : nat) (Hk : (k < 8)%nat) :
  exists (vs : list pyval) (p q : Pose3),
    returned_list (createPoses np_cos np_sin) h = Some vs
    /\ length vs = 8%nat
    /\ vs !! k = Some (VPose3 p)
    /\ vs !! (S k mod 8)%nat = Some (VPose3 q)
    /\ Rabs (px (r1 (rotation (relative_pose p q))) - cos (PI / 4)) <= 1 / 10 ^ 9
    /\ py (r1 (rotation (relative_pose p q))) = 0
    /\ Rabs (pz (r1 (rotation (relative_pose p q))) - sin (PI / 4)) <= 1 / 10 ^ 9
    /\ r2 (rotation (relative_pose p q)) = mkPoint3 0 1 0
    /\ Rabs (px (r3 (rotation (relative_pose p q))) + sin (PI / 4)) <= 1 / 10 ^ 9
    /\ py (r3 (rotation (relative_pose p q))) = 0
    /\ Rabs (pz (r3 (rotation (relative_pose p q))) - cos (PI / 4)) <= 1 / 10 ^ 9
    /\ Rabs (px (translation (relative_pose p q)) - 30 * sin (PI / 4)) <= 1 / 10 ^ 9
    /\ py (translation (relative_pose p q)) = 0
    /\ Rabs (pz (translation (relative_pose p q)) - 30 * (1 - cos (PI / 4)))
       <= 1 / 10 ^ 9.
Proof.
  assert (Hk' : (S k mod 8 < 8)%nat) by (apply Nat.mod_upper_bound; lia).
  destruct (returned_poses_lookup _ _ libm h k Hk)
    as (vs & t1 & e1 & Hvs & Hlen & Hp & _ & _ & Hn1).
  destruct (returned_poses_lookup _ _ libm h _ Hk')
    as (vs' & t2 & e2 & Hvs' & _ & Hq & _ & _ & Hn2).
  assert (vs' = vs) as -> by congruence.
  exists vs, (look_from e1), (look_from e2).
  split; [exact Hvs |]. split; [exact Hlen |]. split; [exact Hp |].
  split; [exact Hq |].
  exact (between_near k e1 e2 Hk Hn1 Hn2).
Qed.

(** X3 at the last pose, whose successor is the first one, from the empty
    heap. *)
Lemma same_motion_between_consecutive_poses_witness :
  exists (vs : list pyval) (p q : Pose3),
    returned_list (createPoses cos_rounded sin_rounded) (∅ : heap) = Some vs
    /\ length vs = 8%nat
    /\ vs !! 7%nat = Some (VPose3 p)
    /\ vs !! (S 7%nat mod 8)%nat = Some (VPose3 q)
    /\ Rabs (px (r1 (rotation (relative_pose p q))) - cos (PI / 4)) <= 1 / 10 ^ 9
    /\ py (r1 (rotation (relative_pose p q))) = 0
    /\ Rabs (pz (r1 (rotation (relative_pose p q))) - sin (PI / 4)) <= 1 / 10 ^ 9
    /\ r2 (rotation (relative_pose p q)) = mkPoint3 0 1 0
    /\ Rabs (px (r3 (rotation (relative_pose p q))) + sin (PI / 4)) <= 1 / 10 ^ 9
    /\ py (r3 (rotation (relative_pose p q))) = 0
    /\ Rabs (pz (r3 (rotation (relative_pose p q))) - cos (PI / 4)) <= 1 / 10 ^ 9
    /\ Rabs (px (translation (relative_pose p q)) - 30 * sin (PI / 4)) <= 1 / 10 ^ 9
    /\ py (translation (relative_pose p q)) = 0
    /\ Rabs (pz (translation (relative_pose p q)) - 30 * (1 - cos (PI / 4)))
       <= 1 / 10 ^ 9.
Proof.
  apply (same_motion_between_consecutive_poses cos_rounded sin_rounded rounded_accurate (∅ : heap) 7%nat); lia.
Defined.

Lemma sqrt_le_times_sqrt3 (a e : R) :
  0 <= a -> e <= a * a * 3 -> sqrt e <= a * sqrt 3.
Proof.
  intros Ha He. rewrite <- (sqrt_square a Ha) at 1.
  rewrite <- sqrt_mult by nra. apply sqrt_le_1_alt, He.
Qed.

(** Two landmarks are equal, or at least one side (20) and at most one
    diagonal (20 sqrt 3) apart. *)
Lemma corners_apart (p q : Point3) :
  In p corners -> In q corners ->
  p = q \/ 20 <= distance p q <= 20 * sqrt 3.
Proof.
  intros Hp Hq. apply corner_signs in Hp, Hq.
  destruct p as [x y z], q as [x' y' z']; simpl in Hp, Hq.
  unfold distance, norm, dot, psub; simpl.
  destruct Hp as ([-> | ->] & [-> | ->] & [-> | ->]);
    destruct Hq as ([-> | ->] & [-> | ->] & [-> | ->]);
    first [ left; reflexivity
          | right; split;
            [apply le_sqrt; lra | apply sqrt_le_times_sqrt3; lra] ].
Qed.

(** X4. [createPoints] returns the 8 corners of a cube of side 20 centred at
    the origin: the list has 8 elements, it is the list [corners], and with
    each landmark it holds its opposite through the origin, at distance
    20 sqrt 3, and a neighbour at distance exactly 20; two different
    landmarks are never closer than 20 nor farther apart than
    20 sqrt 3. *)
Theorem landmarks_form_cube_of_side_20 (h : heap) :
  exists qs : list Point3,
    returned_list createPoints h = Some (map VPoint3 qs)
    /\ length qs = 8%nat
    /\ qs = [mkPoint3 10 10 10; mkPoint3 (-10) 10 10;
             mkPoint3 (-10) (-10) 10; mkPoint3 10 (-10) 10;
             mkPoint3 10 10 (-10); mkPoint3 (-10) 10 (-10);
             mkPoint3 (-10) (-10) (-10); mkPoint3 10 (-10) (-10)]
    /\ Forall (fun p =>
                 In (pneg p) qs
                 /\ distance p (pneg p) = 20 * sqrt 3
                 /\ (exists q, In q qs /\ distance p q = 20)
                 /\ Forall (fun q => p = q
                                     \/ 20 <= distance p q <= 20 * sqrt 3) qs)
              qs.
Proof.
  exists corners. split; [apply returned_corners |].
  split; [reflexivity |]. split; [reflexivity |].
  apply Forall_forall. intros p Hp. apply list_elem_of_In in Hp.
  pose proof (corner_signs p Hp) as (Hx & Hy & Hz).
  pose proof (sqrt_pos 3) as Hpos.
  pose proof (sqrt_sqrt 3 ltac:(lra)) as Hsq.
  split; [| split; [| split]].
  - apply signs_corner; simpl; lra.
  - unfold distance. apply norm_of_square; [lra |].
    unfold dot, psub, pneg; simpl.
    replace (20 * sqrt 3 * (20 * sqrt 3)) with (400 * (sqrt 3 * sqrt 3))
      by ring.
    rewrite Hsq. destruct Hx as [-> | ->], Hy as [-> | ->], Hz as [-> | ->];
      ring.
  - exists (mkPoint3 (- px p) (py p) (pz p)). split.
    + apply signs_corner; simpl; lra.
    + unfold distance. apply norm_of_square; [lra |].
      unfold dot, psub; simpl. destruct Hx as [-> | ->]; ring.
  - apply Forall_forall. intros q Hq. apply list_elem_of_In in Hq.
    apply corners_apart; assumption.
Qed.

(** X5. The lists the two functions return are never shared between calls.
    When a caller appends a value to the list it got from [createPoints] and
    then calls [createPoses] and [createPoints] again, the three lists are
    three distinct objects: the first keeps its 9 elements, the new list of
    landmarks has the 8 corners only, the list of poses has 8 elements, and
    every object that existed before the calls is unchanged. *)
Theorem returned_lists_are_not_shared (np_cos np_sin : float -> float)
        (libm : libm_accurate np_cos np_sin) (h : heap) (v : pyval) :
  exists (l1 l2 l3 : loc) (h' : heap) (ps : list pyval),
    append_between_calls np_cos np_sin v h = Some ((l1, l2, l3), h')
    /\ h' !! l1 = Some (PyList (map VPoint3 corners ++ [v]))
    /\ h' !! l2 = Some (PyList ps)
    /\ length ps = 8%nat
    /\ h' !! l3 = Some (PyList (map VPoint3 corners))
    /\ l1 <> l2 /\ l1 <> l3 /\ l2 <> l3
    /\ h ⊆ h' .
Proof.
  destruct (computed_poses _ _ libm) as (poses & Hposes & Hlen & _).
  destruct (createPoints_fresh h) as (l1 & h1 & R1 & N1 & L1 & S1).
  pose proof (list_append_run l1 v _ h1 L1) as RA.
  set (h2 := <[l1 := PyList (map VPoint3 corners ++ [v])]> h1).
  change (list_append l1 v h1 = Some (tt, h2)) in RA.
  assert (L1' : h2 !! l1 = Some (PyList (map VPoint3 corners ++ [v])))
    by apply lookup_insert_eq.
  destruct (createPoses_fresh _ _ poses Hposes h2)
    as (l2 & h3 & R2 & N2 & L2 & S2).
  destruct (createPoints_fresh h3) as (l3 & h4 & R3 & N3 & L3 & S3).
  exists l1, l2, l3, h4. eexists.
  split.
  { unfold append_between_calls, bind, ret. rewrite R1, RA, R2, R3.
    reflexivity. }
  split; [exact (lookup_weaken _ _ _ _ (lookup_weaken _ _ _ _ L1' S2) S3) |].
  split; [exact (lookup_weaken _ _ _ _ L2 S3) |].
  split; [rewrite length_map; exact Hlen |].
  split; [exact L3 |].
  split; [congruence |]. split.
  { pose proof (lookup_weaken _ _ _ _ L1' S2). congruence. }
  split; [congruence |].
  assert (S12 : h ⊆ h2).
  { apply map_subseteq_spec. intros i x Hi.
    unfold h2. rewrite lookup_insert_ne by congruence.
    exact (lookup_weaken _ _ _ _ Hi S1). }
  etrans; [exact S12 |]. etrans; [exact S2 | exact S3].
Qed.

(** X5 from the empty heap, the appended value being the origin. *)
Lemma returned_lists_are_not_shared_witness :
  exists (l1 l2 l3 : loc) (h' : heap) (ps : list pyval),
    append_between_calls cos_rounded sin_rounded (VPoint3 origin) (∅ : heap) = Some ((l1, l2, l3), h')
    /\ h' !! l1 = Some (PyList (map VPoint3 corners ++ [(VPoint3 origin)]))
    /\ h' !! l2 = Some (PyList ps)
    /\ length ps = 8%nat
    /\ h' !! l3 = Some (PyList (map VPoint3 corners))
    /\ l1 <> l2 /\ l1 <> l3 /\ l2 <> l3
    /\ (∅ : heap) ⊆ h' .
Proof.
  apply (returned_lists_are_not_shared cos_rounded sin_rounded rounded_accurate (∅ : heap) (VPoint3 origin)).
Defined.

End SceneFacts.
